(** * A shallow embedding of the iso_file ISO 9660 writer and reader

    The development follows [src/src/lib.rs], [src/src/core.rs] and
    [src/src/types.rs].  Conventions of the model:
    - bytes are [Z] values in [0, 256); byte buffers are [list Z];
    - the packed [repr(C)] structs are serialised field by field in
      declaration order, on a little-endian host (so a native [u32] is
      written little-endian and [to_be] swaps its bytes);
    - strings are [String.string] over ASCII, which covers every
      a-character path; each character is one byte;
    - a [PathBuf] is represented by its list of components, which is how
      Rust compares paths (and hence how a [BTreeMap<PathBuf, _>] looks
      keys up);
    - arithmetic overflow and [unwrap]/[expect]/indexing failures are
      panics, as in a debug build;
    - the in-memory sink and source ([Cursor<Vec<u8>>]) never fail except
      for a non-empty [read_exact] past the end, which is [UnexpectedEof];
    - the several calls to [Utc::now()] during one [close()] are all given
      the same instant [now]. *)

From Stdlib Require Import ZArith List String Ascii Bool Lia.
Import ListNotations.

Open Scope Z_scope.

(** ** Outcomes: results, errors and panics *)

Inductive io_error_kind := UnexpectedEof.

(** [src/src/error.rs] *)
Inductive IsoFileError :=
| InvalidDate
| InvalidTime
| FileNotFound
| EntryCurrentDirectory
| EntryParentDirectory
| EntryDirectory
| StdIo (k : io_error_kind).

Inductive panic_reason :=
| UnwrapNone
| ArithOverflow
| IndexOutOfBounds
| ExpectFailed (msg : string)
| AssertFailed (msg : string)
| Unreachable.

(** An execution either returns [Ok], returns an error, panics, or (for the
    recursive walks, modelled with fuel) runs out of fuel. *)
Inductive outcome (A : Type) :=
| Ok (a : A)
| Err (e : IsoFileError)
| Panic (p : panic_reason)
| NoFuel.

Arguments Ok {A} a.
Arguments Err {A} e.
Arguments Panic {A} p.
Arguments NoFuel {A}.

Definition bind {A B} (m : outcome A) (k : A -> outcome B) : outcome B :=
  match m with
  | Ok a => k a
  | Err e => Err e
  | Panic p => Panic p
  | NoFuel => NoFuel
  end.

Notation "x <- m ;; k" := (bind m (fun x => k))
  (at level 61, m at next level, right associativity).
Notation "' p <- m ;; k" := (bind m (fun x => match x with p => k end))
  (at level 61, p pattern, m at next level, right associativity).

Definition unwrap {A} (o : option A) : outcome A :=
  match o with Some a => Ok a | None => Panic UnwrapNone end.

Definition expect {A} (o : option A) (msg : string) : outcome A :=
  match o with Some a => Ok a | None => Panic (ExpectFailed msg) end.

(** ** Machine integers and byte encodings *)

Definition u8_max := 256.
Definition u16_max := 65536.
Definition u32_max := 4294967296.

(** [a + b] on [u8] / [u32]: a panic on overflow. *)
Definition u8_add (a b : Z) : outcome Z :=
  if a + b <? u8_max then Ok (a + b) else Panic ArithOverflow.
Definition u32_add (a b : Z) : outcome Z :=
  if a + b <? u32_max then Ok (a + b) else Panic ArithOverflow.
Definition u32_mul (a b : Z) : outcome Z :=
  if a * b <? u32_max then Ok (a * b) else Panic ArithOverflow.

(** [n] bytes of [v], least significant first. *)
Fixpoint le_bytes (n : nat) (v : Z) : list Z :=
  match n with
  | O => []
  | S n' => (v mod 256) :: le_bytes n' (v / 256)
  end.

(** The value of a little-endian byte string. *)
Fixpoint le_value (bs : list Z) : Z :=
  match bs with
  | [] => 0
  | b :: bs' => b + 256 * le_value bs'
  end.

(** [to_be] on a little-endian host: the value whose bytes are reversed. *)
Definition to_be (n : nat) (v : Z) : Z := le_value (rev (le_bytes n v)).

(** A native [u16] / [u32] field of a packed struct. *)
Definition native16 (v : Z) : list Z := le_bytes 2 v.
Definition native32 (v : Z) : list Z := le_bytes 4 v.

(** [LsbMsb::new_u16] / [LsbMsb::new_u32]: the value, then its [to_be]. *)
Definition lsbmsb16 (v : Z) : list Z := native16 v ++ native16 (to_be 2 v).
Definition lsbmsb32 (v : Z) : list Z := native32 v ++ native32 (to_be 4 v).

Definition zeros (n : nat) : list Z := repeat 0 n.

(** ** Strings *)

Definition byte_of_ascii (c : ascii) : Z := Z.of_nat (nat_of_ascii c).
Definition ascii_of_byte (b : Z) : ascii := ascii_of_nat (Z.to_nat b).

Definition string_bytes (s : string) : list Z :=
  map byte_of_ascii (list_ascii_of_string s).

(** [String::from_utf8_lossy] on the byte strings the model meets; a byte
    of [0x80] or more is kept as the corresponding 8-bit character. *)
Definition string_of_bytes (bs : list Z) : string :=
  string_of_list_ascii (map ascii_of_byte bs).

Definition char_between (lo hi c : ascii) : bool :=
  (nat_of_ascii lo <=? nat_of_ascii c)%nat && (nat_of_ascii c <=? nat_of_ascii hi)%nat.

(** [char::to_uppercase] on ASCII.  Paths are modelled as ASCII strings:
    non-ASCII characters, whose uppercase may be several characters
    (as 'ß' gives "SS"), are outside the model. *)
Definition to_upper (c : ascii) : ascii :=
  if char_between "a" "z" c then ascii_of_nat (nat_of_ascii c - 32) else c.

Definition is_d_char (c : ascii) : bool :=
  char_between "A" "Z" c || char_between "0" "9" c || Ascii.eqb c "_".

(** The a-character filter of [append_file] and of [a_characters!]. *)
Definition is_a_char (c : ascii) : bool :=
  is_d_char c ||
  existsb (Ascii.eqb c)
    ["!"; ascii_of_nat 34; "%"; "&"; "'"; "("; ")"; "*"; "+"; ","; "-"; "."; "/";
     ":"; ";"; "<"; "="; ">"; "?"]%char.

Definition take_string (n : nat) (s : string) : string :=
  string_of_list_ascii (firstn n (list_ascii_of_string s)).

Fixpoint contains (pat s : string) : bool :=
  match s with
  | EmptyString => String.prefix pat s
  | String _ s' => String.prefix pat s || contains pat s'
  end.

(** [str::strip_suffix]. *)
Definition strip_suffix (s suf : string) : option string :=
  let n := String.length s in
  let m := String.length suf in
  if (m <=? n)%nat && String.eqb (substring (n - m) m s) suf
  then Some (substring 0 (n - m) s) else None.

(** ** Paths *)

(** [std::path::Component] on Unix. *)
Inductive Component :=
| RootDir
| CurDir
| ParentDir
| Normal (s : string).

Definition Component_eq_dec (a b : Component) : {a = b} + {a <> b}.
Proof. decide equality; apply string_dec. Defined.

Definition PathBuf := list Component.

Definition PathBuf_eqb (p q : PathBuf) : bool :=
  if list_eq_dec Component_eq_dec p q then true else false.

(** Splitting on ['/']. *)
Fixpoint split_slash_aux (s : string) (cur : list ascii) : list string :=
  match s with
  | EmptyString => [string_of_list_ascii (rev cur)]
  | String c s' =>
      if Ascii.eqb c "/" then string_of_list_ascii (rev cur) :: split_slash_aux s' []
      else split_slash_aux s' (c :: cur)
  end.

Definition split_slash (s : string) : list string := split_slash_aux s [].

Definition piece_component (p : string) : list Component :=
  if String.eqb p EmptyString then []
  else if String.eqb p "." then []
  else if String.eqb p ".." then [ParentDir]
  else [Normal p].

(** [Path::components]: empty pieces and non-leading ["."] are dropped. *)
Definition has_root (s : string) : bool :=
  match s with
  | String c _ => Ascii.eqb c "/"
  | EmptyString => false
  end.

Definition components (s : string) : PathBuf :=
  if has_root s then RootDir :: flat_map piece_component (split_slash s)
  else
    match split_slash s with
    | [] => []
    | p :: ps =>
        (if String.eqb p "." then [CurDir] else piece_component p)
          ++ flat_map piece_component ps
    end.

Definition component_str (c : Component) : string :=
  match c with
  | RootDir => "/"
  | CurDir => "."
  | ParentDir => ".."
  | Normal s => s
  end.

Definition not_curdir (c : Component) : bool :=
  match c with CurDir => false | _ => true end.

(** [PathBuf::push] / [Path::join]: an absolute argument replaces the
    base; otherwise its components are appended (a ["."] in the middle of
    the result is normalised away). *)
Definition path_join (base : PathBuf) (s : string) : PathBuf :=
  match components s with
  | (RootDir :: _) as c => c
  | c => match base with
         | [] => c
         | _ => base ++ filter not_curdir c
         end
  end.

(** [Path::starts_with] and [Path::strip_prefix]: component-wise. *)
Fixpoint strip_prefix (base p : PathBuf) : option PathBuf :=
  match base, p with
  | [], _ => Some p
  | b :: base', c :: p' =>
      if Component_eq_dec b c then strip_prefix base' p' else None
  | _ :: _, [] => None
  end.

Definition starts_with (p base : PathBuf) : bool :=
  match strip_prefix base p with Some _ => true | None => false end.

(** [Path::file_name]. *)
Definition file_name (p : PathBuf) : option string :=
  match last p RootDir with
  | Normal s => Some s
  | _ => None
  end.

(** ** Timestamps ([src/src/types.rs]) *)

(** A [DateTime<Utc>]: its calendar fields; the UTC offset is zero. *)
Record DateTime := {
  dt_year : Z; dt_month : Z; dt_day : Z;
  dt_hour : Z; dt_minute : Z; dt_second : Z;
  dt_nanos : Z
}.

Definition utc_offset_seconds : Z := 0.

(** [IsoDateTime]: seven [u8] fields. *)
Record IsoDateTime := {
  idt_year : Z; idt_month : Z; idt_day : Z;
  idt_hour : Z; idt_minute : Z; idt_second : Z;
  idt_gmt_offset : Z
}.

(** [x as u8]: truncation to the low byte. *)
Definition as_u8 (x : Z) : Z := x mod 256.
Definition as_u16 (x : Z) : Z := x mod u16_max.
Definition as_u32 (x : Z) : Z := x mod u32_max.

(** [impl TryFrom<&DateTime<Utc>> for IsoDateTime]. *)
Definition IsoDateTime_try_from (v : DateTime) : outcome IsoDateTime :=
  let gmt_offset := as_u8 (Z.quot utc_offset_seconds (15 * 60)) in
  Ok {| idt_year := as_u8 (dt_year v - 1900);
        idt_month := as_u8 (dt_month v);
        idt_day := as_u8 (dt_day v);
        idt_hour := as_u8 (dt_hour v);
        idt_minute := as_u8 (dt_minute v);
        idt_second := as_u8 (dt_second v);
        idt_gmt_offset := gmt_offset |}.

Definition IsoDateTime_bytes (d : IsoDateTime) : list Z :=
  [idt_year d; idt_month d; idt_day d; idt_hour d; idt_minute d;
   idt_second d; idt_gmt_offset d].

(** ** Directory entries ([src/src/core.rs]) *)

Inductive IsoEntry :=
| CurrentDirectory
| ParentDirectory
| Directory (name : string)
| File (name : string).

Definition is_directory (e : IsoEntry) : bool :=
  match e with Directory _ => true | _ => false end.

Definition is_file (e : IsoEntry) : bool :=
  match e with File _ => true | _ => false end.

Definition IsoEntry_name (e : IsoEntry) : string :=
  match e with
  | CurrentDirectory => String (ascii_of_nat 0) EmptyString
  | ParentDirectory => String (ascii_of_nat 1) EmptyString
  | Directory t => t
  | File t => t ++ ";1"
  end.

(** [IsoDirectoryHeader]: 33 bytes on disk. *)
Record IsoDirectoryHeader := {
  dh_length : Z;
  dh_extended_attribute_length : Z;
  dh_location_of_extent : Z;
  dh_data_length : Z;
  dh_datetime : IsoDateTime;
  dh_flags : Z;
  dh_unit_size : Z;
  dh_interleave_gap_size : Z;
  dh_volume_seq_number : Z;
  dh_file_identifier_length : Z
}.

Definition IsoDirectoryHeader_bytes (h : IsoDirectoryHeader) : list Z :=
  [dh_length h; dh_extended_attribute_length h]
  ++ lsbmsb32 (dh_location_of_extent h)
  ++ lsbmsb32 (dh_data_length h)
  ++ IsoDateTime_bytes (dh_datetime h)
  ++ [dh_flags h; dh_unit_size h; dh_interleave_gap_size h]
  ++ lsbmsb16 (dh_volume_seq_number h)
  ++ [dh_file_identifier_length h].

Record IsoDirectoryEntry := {
  de_entry : IsoEntry;
  de_record : IsoDirectoryHeader;
  de_is_odd : bool
}.

Definition set_location (h : IsoDirectoryHeader) (location : Z) : IsoDirectoryHeader :=
  {| dh_length := dh_length h;
     dh_extended_attribute_length := dh_extended_attribute_length h;
     dh_location_of_extent := as_u32 location;
     dh_data_length := dh_data_length h;
     dh_datetime := dh_datetime h;
     dh_flags := dh_flags h;
     dh_unit_size := dh_unit_size h;
     dh_interleave_gap_size := dh_interleave_gap_size h;
     dh_volume_seq_number := dh_volume_seq_number h;
     dh_file_identifier_length := dh_file_identifier_length h |}.

Definition set_data_length (h : IsoDirectoryHeader) (length : Z) : IsoDirectoryHeader :=
  {| dh_length := dh_length h;
     dh_extended_attribute_length := dh_extended_attribute_length h;
     dh_location_of_extent := dh_location_of_extent h;
     dh_data_length := as_u32 length;
     dh_datetime := dh_datetime h;
     dh_flags := dh_flags h;
     dh_unit_size := dh_unit_size h;
     dh_interleave_gap_size := dh_interleave_gap_size h;
     dh_volume_seq_number := dh_volume_seq_number h;
     dh_file_identifier_length := dh_file_identifier_length h |}.

Definition with_record (d : IsoDirectoryEntry) (r : IsoDirectoryHeader) : IsoDirectoryEntry :=
  {| de_entry := de_entry d; de_record := r; de_is_odd := de_is_odd d |}.

(** [IsoDirectoryEntry::new]. *)
Definition IsoDirectoryEntry_new (data_offset data_length : Z) (timestamp : DateTime)
    (entry : IsoEntry) : outcome IsoDirectoryEntry :=
  let id_len := Z.of_nat (String.length (IsoEntry_name entry)) in
  real_length <- u8_add 33 (as_u8 id_len) ;;
  l1 <- u8_add real_length 1 ;;
  let length := Z.land l1 254 in
  let flags := if is_file entry then 0 else 2 in
  datetime <- expect (match IsoDateTime_try_from timestamp with
                      | Ok d => Some d | _ => None end) "invalid date conversion" ;;
  Ok {| de_entry := entry;
        de_record := {| dh_length := length;
                        dh_extended_attribute_length := 0;
                        dh_location_of_extent := as_u32 data_offset;
                        dh_data_length := as_u32 data_length;
                        dh_datetime := datetime;
                        dh_flags := flags;
                        dh_unit_size := 0;
                        dh_interleave_gap_size := 0;
                        dh_volume_seq_number := 256;
                        dh_file_identifier_length := as_u8 id_len |};
        de_is_odd := negb (real_length =? length) |}.

(** [IsoDirectoryEntry::len]. *)
Definition de_len (d : IsoDirectoryEntry) : Z := dh_length (de_record d).

(** The bytes [IsoDirectoryEntry::write] emits: header, identifier, and a
    pad byte when [is_odd]; it returns their number. *)
Definition de_write_bytes (d : IsoDirectoryEntry) : list Z :=
  IsoDirectoryHeader_bytes (de_record d)
  ++ string_bytes (IsoEntry_name (de_entry d))
  ++ (if de_is_odd d then [0] else []).

Definition de_write (d : IsoDirectoryEntry) : Z := Z.of_nat (List.length (de_write_bytes d)).

(** ** The layout planner, pass 1 ([build_dirs], [build_sectors]) *)

Definition LOGICAL_BLOCK_SIZE : Z := 2048.

Record FileEntry := {
  fe_path : PathBuf;
  fe_content : list Z;
  fe_timestamp : DateTime
}.

Record SectorProps := { group_no : Z; depth : Z }.

Definition Sector := (list IsoDirectoryEntry * SectorProps)%type.

(** [content.chunks(LOGICAL_BLOCK_SIZE)]. *)
Fixpoint chunks_aux (fuel : nat) (l : list Z) : list (list Z) :=
  match fuel with
  | O => []
  | S f =>
      match l with
      | [] => []
      | _ => firstn 2048 l :: chunks_aux f (skipn 2048 l)
      end
  end.

Definition chunks (l : list Z) : list (list Z) := chunks_aux (List.length l) l.

(** The running state of one directory's records: the sector being
    filled, the finished sectors, and the size counter. *)
Record DirsAcc := {
  acc_sector : list IsoDirectoryEntry;
  acc_sectors : list Sector;
  acc_size : Z
}.

(** Appending one record, opening a new sector on overflow. *)
Definition push_record (props : SectorProps) (a : DirsAcc) (d : IsoDirectoryEntry) : DirsAcc :=
  let size := acc_size a + de_len d in
  if size >? LOGICAL_BLOCK_SIZE then
    {| acc_sector := [d]; acc_sectors := acc_sectors a ++ [(acc_sector a, props)];
       acc_size := de_len d |}
  else
    {| acc_sector := acc_sector a ++ [d]; acc_sectors := acc_sectors a; acc_size := size |}.

(** The files loop of [build_dirs]. *)
Fixpoint build_files (props : SectorProps) (entries : list FileEntry)
    (a : DirsAcc) (files_sectors : list (list Z))
    : outcome (DirsAcc * list (list Z)) :=
  match entries with
  | [] => Ok (a, files_sectors)
  | entry :: rest =>
      if (List.length (fe_path entry) =? 2)%nat then
        file_nm <- unwrap (file_name (fe_path entry)) ;;
        file_dir <- IsoDirectoryEntry_new (Z.of_nat (List.length files_sectors))
                      (Z.of_nat (List.length (fe_content entry))) (fe_timestamp entry)
                      (File file_nm) ;;
        build_files props rest (push_record props a file_dir)
          (files_sectors ++ chunks (fe_content entry))
      else build_files props rest a files_sectors
  end.

(** The folders loop of [build_dirs]. *)
Fixpoint build_folders (props : SectorProps) (now : DateTime) (entries : list FileEntry)
    (a : DirsAcc) (folders : list string) : outcome (DirsAcc * list string) :=
  match entries with
  | [] => Ok (a, folders)
  | entry :: rest =>
      if (2 <? List.length (fe_path entry))%nat then
        c <- unwrap (nth_error (fe_path entry) 1) ;;
        let folder_name := component_str c in
        if existsb (String.eqb folder_name) folders then
          build_folders props now rest a folders
        else
          dir_dir <- IsoDirectoryEntry_new 0 0 now (Directory folder_name) ;;
          build_folders props now rest (push_record props a dir_dir)
            (folders ++ [folder_name])
      else build_folders props now rest a folders
  end.

(** [build_dirs]: the [.] and [..] records, the files, the folders. *)
Definition build_dirs (file_entries : list FileEntry) (files_sectors : list (list Z))
    (group_no depth : Z) (now : DateTime)
    : outcome (list Sector * list string * list (list Z)) :=
  let props := {| group_no := group_no; depth := depth |} in
  cur_dir <- IsoDirectoryEntry_new 0 0 now CurrentDirectory ;;
  par_dir <- IsoDirectoryEntry_new 0 0 now ParentDirectory ;;
  let a0 := {| acc_sector := [cur_dir; par_dir]; acc_sectors := [];
               acc_size := de_len cur_dir + de_len par_dir |} in
  '(a1, files_sectors') <- build_files props file_entries a0 files_sectors ;;
  '(a2, folders) <- build_folders props now file_entries a1 [] ;;
  Ok (acc_sectors a2 ++ [(acc_sector a2, props)], folders, files_sectors').

(** The mutable state [build_sectors] threads through its calls. *)
Record BuildState := {
  bs_dirs_sectors : list Sector;
  bs_files_sectors : list (list Z);
  bs_group_no : Z
}.

(** The [for folder in folders] loop of [build_sectors], given the
    recursive call. *)
Fixpoint build_subdirs (rec : string -> BuildState -> outcome BuildState)
    (folders : list string) (st : BuildState) : outcome BuildState :=
  match folders with
  | [] => Ok st
  | folder :: rest =>
      st' <- rec folder st ;;
      build_subdirs rec rest st'
  end.

(** [build_sectors]; its recursion depth is bounded by the longest staged
    path, and [close_plan] gives it that much fuel. *)
Fixpoint build_sectors (fuel : nat) (files : list FileEntry) (depth : Z)
    (base_path_opt : option PathBuf) (now : DateTime) (st : BuildState)
    : outcome BuildState :=
  match fuel with
  | O => NoFuel
  | S fuel' =>
      let base_path := match base_path_opt with Some b => b | None => [RootDir] end in
      let filtered_entries :=
        flat_map (fun t =>
          match strip_prefix base_path (fe_path t) with
          | Some rest =>
              let stripped := match base_path_opt with
                              | Some _ => RootDir :: rest
                              | None => fe_path t
                              end in
              [{| fe_path := stripped; fe_content := fe_content t;
                  fe_timestamp := fe_timestamp t |}]
          | None => []
          end) files in
      '(new_dirs_sectors, folders, files_sectors') <-
        build_dirs filtered_entries (bs_files_sectors st) (bs_group_no st) depth now ;;
      let st' := {| bs_dirs_sectors := bs_dirs_sectors st ++ new_dirs_sectors;
                    bs_files_sectors := files_sectors';
                    bs_group_no := bs_group_no st + 1 |} in
      build_subdirs (fun folder s =>
                       build_sectors fuel' files (depth + 1)
                         (Some (path_join base_path folder)) now s)
        folders st'
  end.

Definition max_path_length (files : list FileEntry) : nat :=
  fold_right (fun f m => Nat.max (List.length (fe_path f)) m) 0%nat files.

Definition build_state_init : BuildState :=
  {| bs_dirs_sectors := []; bs_files_sectors := []; bs_group_no := 0 |}.

(** Pass 1 as [close()] runs it. *)
Definition close_plan (files : list FileEntry) (now : DateTime) : outcome BuildState :=
  build_sectors (S (max_path_length files)) files 0 None now build_state_init.

(** ** The layout planner, pass 2 ([Groups], [ParentDirectoryStack],
    [set_locations]) *)

Record GroupValues := { gv_index : Z; gv_count : Z; gv_depth : Z }.

(** [group_info.entry(group_no).or_insert(GroupValues::new(index, depth)).count += 1]
    on a map kept in first-insertion order (which is the order of [index]). *)
Fixpoint groups_bump (info : list (Z * GroupValues)) (g index d : Z) : list (Z * GroupValues) :=
  match info with
  | [] => [(g, {| gv_index := index; gv_count := 1; gv_depth := d |})]
  | (k, v) :: rest =>
      if k =? g then (k, {| gv_index := gv_index v; gv_count := gv_count v + 1;
                            gv_depth := gv_depth v |}) :: rest
      else (k, v) :: groups_bump rest g index d
  end.

Fixpoint groups_info (items : list Sector) (index : Z) (info : list (Z * GroupValues))
    : list (Z * GroupValues) :=
  match items with
  | [] => info
  | (_, props) :: rest =>
      groups_info rest (index + 1) (groups_bump info (group_no props) index (depth props))
  end.

(** [Groups::new]: the values, sorted by [index]. *)
Definition Groups_new (items : list Sector) : list GroupValues :=
  map snd (groups_info items 0 []).

(** [Groups::get]. *)
Definition Groups_get (groups : list GroupValues) (index : Z) : outcome GroupValues :=
  if index <? 0 then Panic (ExpectFailed "invalid block number")
  else expect (nth_error groups (Z.to_nat index)) "invalid block number".

(** [ParentDirectoryStack]: a deque whose front is the head of the list. *)
Definition pds_set (groups : list GroupValues) (stack : list GroupValues) (props : SectorProps)
    : outcome (list GroupValues) :=
  let len := Z.of_nat (List.length stack) in
  if negb (len =? depth props + 1) then
    if len <? depth props + 1 then
      g <- Groups_get groups (group_no props) ;; Ok (g :: stack)
    else Ok (tl stack)
  else Ok stack.

Definition pds_get (stack : list GroupValues) : outcome GroupValues :=
  if (List.length stack =? 1)%nat then unwrap (hd_error stack)
  else expect (nth_error stack 1) "empty depth stack".

(** [count_stack: [usize; 128]]. *)
Definition COUNT_STACK_LEN : Z := 128.

Fixpoint list_set {A} (l : list A) (n : nat) (x : A) : list A :=
  match l, n with
  | [], _ => []
  | _ :: l', O => x :: l'
  | y :: l', S n' => y :: list_set l' n' x
  end.

Definition array_get (a : list Z) (i : Z) : outcome Z :=
  if (0 <=? i) && (i <? Z.of_nat (List.length a)) then Ok (nth (Z.to_nat i) a 0)
  else Panic IndexOutOfBounds.

(** The [loop] of the [Directory] case: advance [count_stack[group_no]]
    until a group one level deeper is met.  Each round reads a group at a
    strictly larger index, so [Groups_get] fails after [length groups]
    rounds; the fuel given is one more than that. *)
Fixpoint find_subdir_group (fuel : nat) (groups : list GroupValues) (props : SectorProps)
    (count_stack : list Z) : outcome (GroupValues * list Z) :=
  match fuel with
  | O => Panic (ExpectFailed "invalid block number")
  | S f =>
      c <- array_get count_stack (group_no props) ;;
      let cs := list_set count_stack (Z.to_nat (group_no props)) (c + 1) in
      group <- Groups_get groups (group_no props + (c + 1)) ;;
      if gv_depth group =? depth props + 1 then Ok (group, cs)
      else find_subdir_group f groups props cs
  end.

(** One record of one sector. *)
Definition locate_record (start_location dirs_sectors_count : Z) (groups : list GroupValues)
    (stack : list GroupValues) (props : SectorProps)
    (count_stack : list Z) (path_group : list (string * Z)) (dirs : IsoDirectoryEntry)
    : outcome (IsoDirectoryEntry * list Z * list (string * Z)) :=
  match de_entry dirs with
  | CurrentDirectory =>
      group <- Groups_get groups (group_no props) ;;
      let r := set_location (de_record dirs) (start_location + gv_index group) in
      let r := set_data_length r (gv_count group * LOGICAL_BLOCK_SIZE) in
      Ok (with_record dirs r, count_stack, path_group)
  | ParentDirectory =>
      group <- pds_get stack ;;
      let r := set_location (de_record dirs) (start_location + gv_index group) in
      let r := set_data_length r (gv_count group * LOGICAL_BLOCK_SIZE) in
      Ok (with_record dirs r, count_stack, path_group)
  | Directory name =>
      '(group, cs) <- find_subdir_group (S (List.length groups)) groups props count_stack ;;
      let location := start_location + gv_index group in
      let r := set_location (de_record dirs) location in
      let r := set_data_length r (gv_count group * LOGICAL_BLOCK_SIZE) in
      Ok (with_record dirs r, cs, path_group ++ [(name, location)])
  | File _ =>
      let location := dh_location_of_extent (de_record dirs) in
      let r := set_location (de_record dirs) (start_location + dirs_sectors_count + location) in
      Ok (with_record dirs r, count_stack, path_group)
  end.

Fixpoint locate_sector (start_location dirs_sectors_count : Z) (groups : list GroupValues)
    (stack : list GroupValues) (props : SectorProps)
    (count_stack : list Z) (path_group : list (string * Z)) (sector : list IsoDirectoryEntry)
    : outcome (list IsoDirectoryEntry * list Z * list (string * Z)) :=
  match sector with
  | [] => Ok ([], count_stack, path_group)
  | d :: rest =>
      '(d', cs, pg) <- locate_record start_location dirs_sectors_count groups stack props
                         count_stack path_group d ;;
      '(rest', cs', pg') <- locate_sector start_location dirs_sectors_count groups stack
                              props cs pg rest ;;
      Ok (d' :: rest', cs', pg')
  end.

Fixpoint locate_sectors (start_location dirs_sectors_count : Z) (groups : list GroupValues)
    (stack : list GroupValues) (count_stack : list Z) (sectors : list Sector)
    : outcome (list Sector * list (list (string * Z))) :=
  match sectors with
  | [] => Ok ([], [])
  | (sector, props) :: rest =>
      stack' <- pds_set groups stack props ;;
      '(sector', cs, path_group) <- locate_sector start_location dirs_sectors_count groups
                                      stack' props count_stack [] sector ;;
      '(rest', pgs) <- locate_sectors start_location dirs_sectors_count groups stack' cs rest ;;
      Ok ((sector', props) :: rest', path_group :: pgs)
  end.

(** [set_locations]: the located sectors (the source mutates them in
    place) and the path groups, one per sector. *)
Definition set_locations (start_location : Z) (dirs_sectors : list Sector)
    : outcome (list Sector * list (list (string * Z))) :=
  let groups := Groups_new dirs_sectors in
  locate_sectors start_location (Z.of_nat (List.length dirs_sectors)) groups []
    (repeat 0 (Z.to_nat COUNT_STACK_LEN)) dirs_sectors.

(** ** Path tables *)

Record IsoPathTableEntryHeader := {
  pt_length : Z;
  pt_extended_attribute_length : Z;
  pt_location_of_extent : Z;
  pt_directory_number_of_parent_directory : Z
}.

Record IsoPathTableEntry := {
  pte_header : IsoPathTableEntryHeader;
  pte_directory_id : string
}.

Inductive IsoPathTable :=
| LTable (entries : list IsoPathTableEntry)
| MTable (entries : list IsoPathTableEntry).

(** [IsoPathTableEntry::new]. *)
Definition IsoPathTableEntry_new (location parent_directory : Z) (directory_id : string)
    : IsoPathTableEntry :=
  {| pte_header := {| pt_length := as_u8 (Z.of_nat (String.length directory_id));
                      pt_extended_attribute_length := 0;
                      pt_location_of_extent := as_u32 location;
                      pt_directory_number_of_parent_directory := as_u16 parent_directory |};
     pte_directory_id := directory_id |}.

Definition table_entries (t : IsoPathTable) : list IsoPathTableEntry :=
  match t with LTable es => es | MTable es => es end.

Definition IsoPathTableEntry_bytes (e : IsoPathTableEntry) : list Z :=
  let h := pte_header e in
  [pt_length h; pt_extended_attribute_length h]
  ++ native32 (pt_location_of_extent h)
  ++ native16 (pt_directory_number_of_parent_directory h)
  ++ string_bytes (pte_directory_id e)
  ++ (if Z.odd (pt_length h) then [0] else []).

(** [IsoPathTable::as_vec]. *)
Definition as_vec (t : IsoPathTable) : list Z :=
  flat_map IsoPathTableEntry_bytes (table_entries t).

(** [IsoPathTable::new_l_table]. *)
Definition new_l_table (source : list (list (string * Z))) : outcome IsoPathTable :=
  first <- (match source with s0 :: _ => Ok s0 | [] => Panic IndexOutOfBounds end) ;;
  let root := IsoPathTableEntry_new 23 1 (String (ascii_of_nat 0) EmptyString) in
  (* first level folders *)
  let '(index1, table1, folder_map) :=
    fold_left (fun '(index, table, fm) (folder : string * Z) =>
                 (index + 1, table ++ [IsoPathTableEntry_new (snd folder) 1 (fst folder)],
                  fm ++ [(folder, index + 1)]))
              first (1, [root], []) in
  (* subfolders *)
  let '(_, table2) :=
    fold_left (fun '(index, table) (ip : nat * list (string * Z)) =>
                 let '(i, subfolders) := ip in
                 match nth_error folder_map i with
                 | Some (_, parent_index) =>
                     fold_left (fun '(index, table) (sub : string * Z) =>
                                  (index + 1,
                                   table ++ [IsoPathTableEntry_new (snd sub) parent_index (fst sub)]))
                               subfolders (index, table)
                 | None => (index, table)
                 end)
              (combine (seq 0 (List.length (tl source))) (tl source)) (index1, table1) in
  Ok (LTable table2).

Definition swap_entry (e : IsoPathTableEntry) : IsoPathTableEntry :=
  let h := pte_header e in
  {| pte_header := {| pt_length := pt_length h;
                      pt_extended_attribute_length := pt_extended_attribute_length h;
                      pt_location_of_extent := to_be 4 (pt_location_of_extent h);
                      pt_directory_number_of_parent_directory :=
                        to_be 2 (pt_directory_number_of_parent_directory h) |};
     pte_directory_id := pte_directory_id e |}.

(** [IsoPathTable::convert_to_m_table]. *)
Definition convert_to_m_table (t : IsoPathTable) : IsoPathTable :=
  match t with
  | LTable es => MTable (map swap_entry es)
  | MTable es => MTable es
  end.

(** ** File staging ([IsoFileWriter::append_file]) *)

(** The normalised path: uppercase, a-characters only, each component
    cut to 222 characters and pushed onto an empty [PathBuf]. *)
Definition append_file_path (path : string) : PathBuf :=
  let a_characters :=
    string_of_list_ascii (filter is_a_char (map to_upper (list_ascii_of_string path))) in
  fold_left (fun new_path component =>
               path_join new_path (take_string 222 (component_str component)))
            (components a_characters) [].

Definition append_file (files : list FileEntry) (path : string) (content : list Z)
    (timestamp : DateTime) : list FileEntry :=
  files ++ [{| fe_path := append_file_path path; fe_content := content;
               fe_timestamp := timestamp |}].

(** Staging a list of [(path, content, timestamp)] in order. *)
Definition stage (inputs : list (string * list Z * DateTime)) : list FileEntry :=
  fold_left (fun fs '(p, c, t) => append_file fs p c t) inputs [].

(** ** Volume descriptor ([IsoHeader], [IsoHeaderRaw], [DecDateTime]) *)

Fixpoint digits_aux (fuel : nat) (n : Z) (acc : list ascii) : list ascii :=
  match fuel with
  | O => acc
  | S f =>
      let acc' := ascii_of_nat (48 + Z.to_nat (n mod 10)) :: acc in
      if n <? 10 then acc' else digits_aux f (n / 10) acc'
  end.

Definition decimal_digits (n : Z) : list ascii := digits_aux 64 n [].

(** [format!("{:0w}", v)]: zero padded to width [w], the sign counted. *)
Definition fmt_zero_pad (w : nat) (v : Z) : list Z :=
  map byte_of_ascii
    (if v <? 0 then
       let d := decimal_digits (- v) in
       "-"%char :: repeat "0"%char (w - 1 - List.length d) ++ d
     else
       let d := decimal_digits v in
       repeat "0"%char (w - List.length d) ++ d).

(** [impl TryFrom<&DateTime<Utc>> for DecDateTime]: 17 bytes. *)
Definition DecDateTime_try_from (v : DateTime) : outcome (list Z) :=
  let millis := dt_nanos v / 1000000 in
  Ok (firstn 4 (fmt_zero_pad 4 (dt_year v))
      ++ firstn 2 (fmt_zero_pad 2 (dt_month v))
      ++ firstn 2 (fmt_zero_pad 2 (dt_day v))
      ++ firstn 2 (fmt_zero_pad 2 (dt_hour v))
      ++ firstn 2 (fmt_zero_pad 2 (dt_minute v))
      ++ firstn 2 (fmt_zero_pad 2 (dt_second v))
      ++ firstn 2 (fmt_zero_pad 3 millis)
      ++ [as_u8 (Z.quot utc_offset_seconds (15 * 60))]).

Definition DecDateTime_default : list Z := repeat 48 16 ++ [0].
Definition DecDateTime_zeroed : list Z := zeros 17.

(** [impl TryFrom<Option<DateTime<Utc>>> for DecDateTime]. *)
Definition DecDateTime_of_option (v : option DateTime) : outcome (list Z) :=
  match v with
  | Some t => DecDateTime_try_from t
  | None => Ok DecDateTime_default
  end.

(** [a_characters!] and [d_characters!]: filter, then copy into a
    space-filled array of [size] bytes. *)
Definition fixed_field (keep : ascii -> bool) (field : option string) (size : nat) : list Z :=
  match field with
  | Some t =>
      let filtered := map byte_of_ascii (filter keep (list_ascii_of_string t)) in
      firstn size filtered ++ repeat 32 (size - List.length filtered)
  | None => repeat 32 size
  end.

Definition a_characters (field : option string) (size : nat) : list Z :=
  fixed_field is_a_char field size.
Definition d_characters (field : option string) (size : nat) : list Z :=
  fixed_field is_d_char field size.

(** [RootDirectoryEntry] and its 34-byte raw form. *)
Record RootDirectoryEntry := {
  rde_location_of_extent : Z;
  rde_data_length : Z;
  rde_datetime : DateTime
}.

Definition RootDirectoryEntry_into_raw (r : RootDirectoryEntry) : outcome (list Z) :=
  datetime <- IsoDateTime_try_from (rde_datetime r) ;;
  Ok ([34; 0] ++ lsbmsb32 (as_u32 (rde_location_of_extent r))
      ++ lsbmsb32 (as_u32 (rde_data_length r))
      ++ IsoDateTime_bytes datetime
      ++ [2; 0; 0] ++ lsbmsb16 1 ++ [1] ++ [0]).

(** [IsoHeaderRaw]: each field as its bytes, in declaration order. *)
Record IsoHeaderRaw := {
  hr_type_code : list Z; hr_standard_id : list Z; hr_version : list Z;
  hr_unused00 : list Z; hr_system_id : list Z; hr_volumen_id : list Z;
  hr_unused01 : list Z; hr_volume_space_size : list Z; hr_unused02 : list Z;
  hr_volume_set_size : list Z; hr_volume_sequence_number : list Z;
  hr_logical_block_size : list Z; hr_path_table_size : list Z;
  hr_loc_of_type_l_path_table : list Z; hr_loc_of_opti_l_path_table : list Z;
  hr_loc_of_type_m_path_table : list Z; hr_loc_of_opti_m_path_table : list Z;
  hr_root_directory_entry : list Z;
  hr_volume_set_id : list Z; hr_publisher_id : list Z; hr_data_preparer_id : list Z;
  hr_application_id : list Z; hr_copyright_file_id : list Z;
  hr_abstract_file_id : list Z; hr_bibliographic_file_id : list Z;
  hr_volume_creation_date : list Z; hr_volume_modification_date : list Z;
  hr_volume_expiration_date : list Z; hr_volume_effective_date : list Z;
  hr_file_structure_version : list Z; hr_unused03 : list Z;
  hr_application_used : list Z; hr_reserved : list Z
}.

(** [IsoHeaderRaw::write]: the packed struct's bytes. *)
Definition IsoHeaderRaw_bytes (h : IsoHeaderRaw) : list Z :=
  hr_type_code h ++ hr_standard_id h ++ hr_version h ++ hr_unused00 h
  ++ hr_system_id h ++ hr_volumen_id h ++ hr_unused01 h ++ hr_volume_space_size h
  ++ hr_unused02 h ++ hr_volume_set_size h ++ hr_volume_sequence_number h
  ++ hr_logical_block_size h ++ hr_path_table_size h
  ++ hr_loc_of_type_l_path_table h ++ hr_loc_of_opti_l_path_table h
  ++ hr_loc_of_type_m_path_table h ++ hr_loc_of_opti_m_path_table h
  ++ hr_root_directory_entry h
  ++ hr_volume_set_id h ++ hr_publisher_id h ++ hr_data_preparer_id h
  ++ hr_application_id h ++ hr_copyright_file_id h ++ hr_abstract_file_id h
  ++ hr_bibliographic_file_id h
  ++ hr_volume_creation_date h ++ hr_volume_modification_date h
  ++ hr_volume_expiration_date h ++ hr_volume_effective_date h
  ++ hr_file_structure_version h ++ hr_unused03 h ++ hr_application_used h
  ++ hr_reserved h.

Definition standard_id_CD001 : list Z := string_bytes "CD001".

(** [IsoHeaderRaw::terminator()]: the default with the fields it overrides. *)
Definition IsoHeaderRaw_terminator : IsoHeaderRaw :=
  {| hr_type_code := [255]; hr_standard_id := standard_id_CD001; hr_version := [1];
     hr_unused00 := [0]; hr_system_id := zeros 32; hr_volumen_id := zeros 32;
     hr_unused01 := zeros 8; hr_volume_space_size := zeros 8; hr_unused02 := zeros 32;
     hr_volume_set_size := zeros 4; hr_volume_sequence_number := zeros 4;
     hr_logical_block_size := zeros 4; hr_path_table_size := zeros 8;
     hr_loc_of_type_l_path_table := zeros 4; hr_loc_of_opti_l_path_table := zeros 4;
     hr_loc_of_type_m_path_table := zeros 4; hr_loc_of_opti_m_path_table := zeros 4;
     hr_root_directory_entry := zeros 34;
     hr_volume_set_id := zeros 128; hr_publisher_id := zeros 128;
     hr_data_preparer_id := zeros 128; hr_application_id := zeros 128;
     hr_copyright_file_id := zeros 37; hr_abstract_file_id := zeros 37;
     hr_bibliographic_file_id := zeros 37;
     hr_volume_creation_date := DecDateTime_zeroed;
     hr_volume_modification_date := DecDateTime_zeroed;
     hr_volume_expiration_date := DecDateTime_zeroed;
     hr_volume_effective_date := DecDateTime_zeroed;
     hr_file_structure_version := [0]; hr_unused03 := [0];
     hr_application_used := zeros 512; hr_reserved := zeros 653 |}.

(** [IsoHeader]. *)
Record IsoHeader := {
  h_system_id : option string;
  h_volumen_id : option string;
  h_volume_space_size : Z;
  h_volume_set_size : Z;
  h_volume_sequence_number : Z;
  h_logical_block_size : Z;
  h_path_table_size : Z;
  h_loc_of_type_l_path_table : Z;
  h_loc_of_opti_l_path_table : Z;
  h_loc_of_type_m_path_table : Z;
  h_loc_of_opti_m_path_table : Z;
  h_volume_set_id : option string;
  h_publisher_id : option string;
  h_data_preparer_id : option string;
  h_application_id : option string;
  h_copyright_file_id : option string;
  h_abstract_file_id : option string;
  h_bibliographic_file_id : option string;
  h_volume_creation_date : option DateTime;
  h_volume_modification_date : option DateTime;
  h_volume_expiration_date : option DateTime;
  h_volume_effective_date : option DateTime
}.

(** [impl Default for IsoHeader], with [Utc::now()] as [now]. *)
Definition IsoHeader_default (now : DateTime) : IsoHeader :=
  {| h_system_id := Some "LINUX"%string; h_volumen_id := Some "CDROM"%string;
     h_volume_space_size := 0; h_volume_set_size := 0; h_volume_sequence_number := 0;
     h_logical_block_size := LOGICAL_BLOCK_SIZE; h_path_table_size := 0;
     h_loc_of_type_l_path_table := 0; h_loc_of_opti_l_path_table := 0;
     h_loc_of_type_m_path_table := 0; h_loc_of_opti_m_path_table := 0;
     h_volume_set_id := None; h_publisher_id := None;
     h_data_preparer_id := Some "P"%string; h_application_id := Some "PROTEUS"%string;
     h_copyright_file_id := None; h_abstract_file_id := None;
     h_bibliographic_file_id := None;
     h_volume_creation_date := Some now; h_volume_modification_date := Some now;
     h_volume_expiration_date := None; h_volume_effective_date := Some now |}.

(** [IsoHeader::into_raw]. *)
Definition IsoHeader_into_raw (h : IsoHeader) (root_directory : RootDirectoryEntry)
    : outcome IsoHeaderRaw :=
  root <- RootDirectoryEntry_into_raw root_directory ;;
  cdate <- DecDateTime_of_option (h_volume_creation_date h) ;;
  mdate <- DecDateTime_of_option (h_volume_modification_date h) ;;
  xdate <- DecDateTime_of_option (h_volume_expiration_date h) ;;
  edate <- DecDateTime_of_option (h_volume_effective_date h) ;;
  Ok {| hr_type_code := [1]; hr_standard_id := standard_id_CD001; hr_version := [1];
        hr_unused00 := [0];
        hr_system_id := a_characters (h_system_id h) 32;
        hr_volumen_id := d_characters (h_volumen_id h) 32;
        hr_unused01 := zeros 8;
        hr_volume_space_size := lsbmsb32 (h_volume_space_size h);
        hr_unused02 := zeros 32;
        hr_volume_set_size := lsbmsb16 (h_volume_set_size h);
        hr_volume_sequence_number := lsbmsb16 (h_volume_sequence_number h);
        hr_logical_block_size := lsbmsb16 (h_logical_block_size h);
        hr_path_table_size := lsbmsb32 (h_path_table_size h);
        hr_loc_of_type_l_path_table := native32 (h_loc_of_type_l_path_table h);
        hr_loc_of_opti_l_path_table := native32 (h_loc_of_opti_l_path_table h);
        hr_loc_of_type_m_path_table := native32 (to_be 4 (h_loc_of_type_m_path_table h));
        hr_loc_of_opti_m_path_table := native32 (to_be 4 (h_loc_of_opti_m_path_table h));
        hr_root_directory_entry := root;
        hr_volume_set_id := d_characters (h_volume_set_id h) 128;
        hr_publisher_id := a_characters (h_publisher_id h) 128;
        hr_data_preparer_id := a_characters (h_data_preparer_id h) 128;
        hr_application_id := a_characters (h_application_id h) 128;
        hr_copyright_file_id := d_characters (h_copyright_file_id h) 37;
        hr_abstract_file_id := d_characters (h_abstract_file_id h) 37;
        hr_bibliographic_file_id := d_characters (h_bibliographic_file_id h) 37;
        hr_volume_creation_date := cdate; hr_volume_modification_date := mdate;
        hr_volume_expiration_date := xdate; hr_volume_effective_date := edate;
        hr_file_structure_version := [1]; hr_unused03 := [0];
        hr_application_used := repeat 32 512; hr_reserved := zeros 653 |}.

(** ** The serializer ([IsoFileWriter::close]) *)

Record IsoFileWriter := {
  w_header : IsoHeader;
  w_files : list FileEntry
}.

Definition IsoFileWriter_new (header : IsoHeader) : IsoFileWriter :=
  {| w_header := header; w_files := [] |}.

Definition IsoFileWriter_append_file (w : IsoFileWriter) (path : string) (content : list Z)
    (timestamp : DateTime) : IsoFileWriter :=
  {| w_header := w_header w; w_files := append_file (w_files w) path content timestamp |}.

(** The records of one sector, [size -= entry.write(..)] on a [usize]. *)
Fixpoint write_records (size : Z) (sector : list IsoDirectoryEntry) : outcome (list Z * Z) :=
  match sector with
  | [] => Ok ([], size)
  | e :: rest =>
      if size <? de_write e then Panic ArithOverflow
      else
        '(bs, size') <- write_records (size - de_write e) rest ;;
        Ok (de_write_bytes e ++ bs, size')
  end.

(** One directory sector: its records, then [size] zero bytes. *)
Definition write_dir_sector (sector : list IsoDirectoryEntry) : outcome (list Z) :=
  '(bs, size) <- write_records LOGICAL_BLOCK_SIZE sector ;;
  Ok (bs ++ zeros (Z.to_nat size)).

Fixpoint write_dir_sectors (sectors : list Sector) : outcome (list Z) :=
  match sectors with
  | [] => Ok []
  | (sector, _) :: rest =>
      bs <- write_dir_sector sector ;;
      bs' <- write_dir_sectors rest ;;
      Ok (bs ++ bs')
  end.

(** One file sector: the chunk copied into a zeroed 2048-byte buffer. *)
Definition write_file_sector (sector : list Z) : list Z :=
  let len := Nat.min (List.length sector) 2048 in
  firstn len sector ++ zeros (2048 - len).

(** A path table copied into its two-sector buffer. *)
Definition path_table_buffer (l_len : nat) (raw : list Z) (msg : string) : outcome (list Z) :=
  if (l_len <=? 4096)%nat then
    if (List.length raw <=? 4096)%nat then Ok (raw ++ zeros (4096 - List.length raw))
    else Panic IndexOutOfBounds
  else Panic (AssertFailed msg).

Definition count_root_sectors (dirs_sectors : list Sector) : nat :=
  List.length (filter (fun s => group_no (snd s) =? 0) dirs_sectors).

(** [IsoFileWriter::close]: the bytes written to the sink. *)
Definition close (w : IsoFileWriter) (now : DateTime) : outcome (list Z) :=
  st <- close_plan (w_files w) now ;;
  '(dirs_sectors, path_groups) <- set_locations 23 (bs_dirs_sectors st) ;;
  let files_sectors := bs_files_sectors st in
  l_path_table <- new_l_table path_groups ;;
  let l_path_table_raw := as_vec l_path_table in
  let l_path_table_len := List.length l_path_table_raw in
  let h := w_header w in
  let header :=
    {| h_system_id := h_system_id h; h_volumen_id := h_volumen_id h;
       h_volume_space_size :=
         as_u32 (22 + Z.of_nat (List.length dirs_sectors) + Z.of_nat (List.length files_sectors));
       h_volume_set_size := 1; h_volume_sequence_number := 1;
       h_logical_block_size := h_logical_block_size h;
       h_path_table_size := as_u32 (Z.of_nat l_path_table_len);
       h_loc_of_type_l_path_table := 19;
       h_loc_of_opti_l_path_table := h_loc_of_opti_l_path_table h;
       h_loc_of_type_m_path_table := 21;
       h_loc_of_opti_m_path_table := h_loc_of_opti_m_path_table h;
       h_volume_set_id := h_volume_set_id h; h_publisher_id := h_publisher_id h;
       h_data_preparer_id := h_data_preparer_id h; h_application_id := h_application_id h;
       h_copyright_file_id := h_copyright_file_id h;
       h_abstract_file_id := h_abstract_file_id h;
       h_bibliographic_file_id := h_bibliographic_file_id h;
       h_volume_creation_date := h_volume_creation_date h;
       h_volume_modification_date := h_volume_modification_date h;
       h_volume_expiration_date := h_volume_expiration_date h;
       h_volume_effective_date := h_volume_effective_date h |} in
  let root_sectors := count_root_sectors dirs_sectors in
  let root_directory := {| rde_location_of_extent := 23;
                           rde_data_length := Z.of_nat root_sectors * LOGICAL_BLOCK_SIZE;
                           rde_datetime := now |} in
  header_raw <- IsoHeader_into_raw header root_directory ;;
  let m_path_table := convert_to_m_table l_path_table in
  let m_path_table_raw := as_vec m_path_table in
  l_buffer <- path_table_buffer l_path_table_len l_path_table_raw "l path table is too large" ;;
  m_buffer <- path_table_buffer l_path_table_len m_path_table_raw "m path table is too large" ;;
  dirs_bytes <- write_dir_sectors dirs_sectors ;;
  Ok (zeros 32768
      ++ IsoHeaderRaw_bytes header_raw
      ++ IsoHeaderRaw_bytes IsoHeaderRaw_terminator
      ++ zeros 2048
      ++ l_buffer ++ m_buffer
      ++ dirs_bytes
      ++ flat_map write_file_sector files_sectors).

(** The planner's output, as [close] computes it before writing. *)
Definition close_layout (w : IsoFileWriter) (now : DateTime)
    : outcome (list Sector * list (list Z) * list (list (string * Z))) :=
  st <- close_plan (w_files w) now ;;
  '(dirs_sectors, path_groups) <- set_locations 23 (bs_dirs_sectors st) ;;
  Ok (dirs_sectors, bs_files_sectors st, path_groups).

(** ** The reader ([IsoFileReader], [IsoDirectoryEntries::read],
    [IsoPathTable::read_l_table]) *)

(** [seek(Start(off))] then [read_exact] of [n] bytes on a [Cursor]:
    seeking past the end is allowed, and filling an empty buffer succeeds
    wherever the cursor stands. *)
Definition read_exact (img : list Z) (off : Z) (n : nat) : outcome (list Z) :=
  if (n =? 0)%nat || (Z.of_nat n + off <=? Z.of_nat (List.length img))
  then Ok (firstn n (skipn (Z.to_nat off) img))
  else Err (StdIo UnexpectedEof).

Definition field (bs : list Z) (off len : nat) : Z := le_value (firstn len (skipn off bs)).

(** Accessors of the transmuted [IsoHeaderRaw] (2048 bytes). *)
Definition hraw_logical_block_size (hb : list Z) : Z := field hb 128 2.
Definition hraw_loc_of_type_l_path_table_field (hb : list Z) : Z := field hb 140 4.
Definition hraw_root_location_field (hb : list Z) : Z := field hb 158 4.
Definition hraw_volume_space_size (hb : list Z) : Z := field hb 80 4.

(** The transmuted [IsoDirectoryHeader] (33 bytes); the LSB halves of the
    pairs are kept. *)
Definition parse_dir_header (b : list Z) : IsoDirectoryHeader :=
  {| dh_length := field b 0 1;
     dh_extended_attribute_length := field b 1 1;
     dh_location_of_extent := field b 2 4;
     dh_data_length := field b 10 4;
     dh_datetime := {| idt_year := field b 18 1; idt_month := field b 19 1;
                       idt_day := field b 20 1; idt_hour := field b 21 1;
                       idt_minute := field b 22 1; idt_second := field b 23 1;
                       idt_gmt_offset := field b 24 1 |};
     dh_flags := field b 25 1;
     dh_unit_size := field b 26 1;
     dh_interleave_gap_size := field b 27 1;
     dh_volume_seq_number := field b 28 2;
     dh_file_identifier_length := field b 32 1 |}.

(** [impl From<Vec<u8>> for IsoEntry]. *)
Definition IsoEntry_from (src : list Z) : IsoEntry :=
  let str := string_of_bytes src in
  if String.eqb str (String (ascii_of_nat 0) EmptyString) then CurrentDirectory
  else if String.eqb str (String (ascii_of_nat 1) EmptyString) then ParentDirectory
  else if contains ";1" str then
    File (match strip_suffix str ";1" with Some s => s | None => EmptyString end)
  else Directory str.

(** [IsoDirectoryEntries]: a [BTreeMap<PathBuf, IsoDirectoryEntry>]. *)
Definition Entries := list (PathBuf * IsoDirectoryEntry).

Fixpoint map_insert (m : Entries) (k : PathBuf) (v : IsoDirectoryEntry) : Entries :=
  match m with
  | [] => [(k, v)]
  | (k', v') :: rest =>
      if PathBuf_eqb k k' then (k', v) :: rest else (k', v') :: map_insert rest k v
  end.

Fixpoint map_get (m : Entries) (k : PathBuf) : option IsoDirectoryEntry :=
  match m with
  | [] => None
  | (k', v) :: rest => if PathBuf_eqb k k' then Some v else map_get rest k
  end.

(** The loop of [IsoDirectoryEntries::read], given the recursive call:
    records until one of length 0; a [Directory] record is descended into,
    the others are inserted. *)
Fixpoint read_dir_loop (rec : PathBuf -> Z -> Entries -> outcome Entries)
    (img : list Z) (base : PathBuf) (logical_block_size : Z)
    (fuel : nat) (offset : Z) (entries : Entries) : outcome Entries :=
  match fuel with
  | O => NoFuel
  | S f =>
      hb <- read_exact img offset 33 ;;
      let record := parse_dir_header hb in
      if dh_length record =? 0 then Ok entries
      else
        file_id_buffer <- read_exact img (offset + 33)
                            (Z.to_nat (dh_file_identifier_length record)) ;;
        offset' <- u32_add offset (dh_length record) ;;
        let entry := IsoEntry_from file_id_buffer in
        let is_odd := Z.odd (dh_file_identifier_length record) in
        let value := {| de_entry := entry; de_record := record; de_is_odd := is_odd |} in
        match entry with
        | CurrentDirectory =>
            read_dir_loop rec img base logical_block_size f offset'
              (map_insert entries (path_join base ".") value)
        | ParentDirectory =>
            read_dir_loop rec img base logical_block_size f offset'
              (map_insert entries (path_join base "..") value)
        | File t =>
            read_dir_loop rec img base logical_block_size f offset'
              (map_insert entries (path_join base t) value)
        | Directory t =>
            loc <- u32_mul (dh_location_of_extent record) logical_block_size ;;
            entries' <- rec (path_join base t) loc entries ;;
            read_dir_loop rec img base logical_block_size f offset' entries'
        end
  end.

(** [IsoDirectoryEntries::read].  The loop advances by at least one byte
    per record, so [length img + 1] rounds suffice; the recursion depth
    (unbounded on a cyclic image) is given fuel. *)
Fixpoint read_dir (dfuel : nat) (img : list Z) (base : PathBuf) (logical_block_size : Z)
    (offset : Z) (entries : Entries) : outcome Entries :=
  match dfuel with
  | O => NoFuel
  | S df =>
      read_dir_loop (fun b o e => read_dir df img b logical_block_size o e)
        img base logical_block_size (S (List.length img)) offset entries
  end.

Definition parse_path_table_header (b : list Z) : IsoPathTableEntryHeader :=
  {| pt_length := field b 0 1;
     pt_extended_attribute_length := field b 1 1;
     pt_location_of_extent := field b 2 4;
     pt_directory_number_of_parent_directory := field b 6 2 |}.

(** [IsoPathTable::read_l_table]; each entry takes at least nine bytes. *)
Fixpoint read_l_table_loop (fuel : nat) (img : list Z) (offset : Z)
    (entries : list IsoPathTableEntry) : outcome (list IsoPathTableEntry) :=
  match fuel with
  | O => NoFuel
  | S f =>
      hb <- read_exact img offset 8 ;;
      let header := parse_path_table_header hb in
      if pt_length header =? 0 then Ok entries
      else
        directory_id <- read_exact img (offset + 8) (Z.to_nat (pt_length header)) ;;
        let next := offset + 8 + pt_length header + (if Z.odd (pt_length header) then 1 else 0) in
        read_l_table_loop f img next
          (entries ++ [{| pte_header := header; pte_directory_id := string_of_bytes directory_id |}])
  end.

Definition read_l_table (img : list Z) (location : Z) : outcome IsoPathTable :=
  es <- read_l_table_loop (S (List.length img)) img location [] ;;
  Ok (LTable es).

Record IsoFileReader := {
  r_header : list Z;
  r_path_table : IsoPathTable;
  r_entries : Entries;
  r_image : list Z
}.

(** [IsoFileReader::read]. *)
Definition IsoFileReader_read (img : list Z) : outcome IsoFileReader :=
  header <- read_exact img 32768 2048 ;;
  type_l_location <- u32_mul (hraw_loc_of_type_l_path_table_field header)
                       (hraw_logical_block_size header) ;;
  path_table <- read_l_table img type_l_location ;;
  root <- u32_mul (hraw_root_location_field header) (hraw_logical_block_size header) ;;
  entries <- read_dir (S (List.length img)) img [RootDir] (hraw_logical_block_size header)
               root [] ;;
  Ok {| r_header := header; r_path_table := path_table; r_entries := entries;
        r_image := img |}.

(** [IsoFileReader::read_file]. *)
Definition read_file (r : IsoFileReader) (path : string) : outcome (list Z) :=
  match map_get (r_entries r) (components path) with
  | Some value =>
      match de_entry value with
      | CurrentDirectory => Err EntryCurrentDirectory
      | ParentDirectory => Err EntryParentDirectory
      | Directory _ => Panic Unreachable
      | File _ =>
          loc <- u32_mul (dh_location_of_extent (de_record value))
                   (hraw_logical_block_size (r_header r)) ;;
          read_exact (r_image r) loc (Z.to_nat (dh_data_length (de_record value)))
      end
  | None => Err FileNotFound
  end.

(** Writing staged files with the default header, then reading the image
    back. *)
(** The writer after [append_file] of each input in order. *)
Definition writer_of (now : DateTime) (inputs : list (string * list Z * DateTime))
    : IsoFileWriter :=
  fold_left (fun w '(p, c, t) => IsoFileWriter_append_file w p c t) inputs
    (IsoFileWriter_new (IsoHeader_default now)).

Definition write_image (now : DateTime) (inputs : list (string * list Z * DateTime))
    : outcome (list Z) :=
  close (writer_of now inputs) now.

Definition roundtrip_read (now : DateTime) (inputs : list (string * list Z * DateTime))
    (path : string) : outcome (list Z) :=
  img <- write_image now inputs ;;
  r <- IsoFileReader_read img ;;
  read_file r path.

(** ** Concrete inputs *)

Open Scope string_scope.

Definition ts_2024 : DateTime :=
  {| dt_year := 2024; dt_month := 1; dt_day := 2; dt_hour := 3; dt_minute := 4;
     dt_second := 5; dt_nanos := 0 |}.

Definition ts_2200 : DateTime :=
  {| dt_year := 2200; dt_month := 1; dt_day := 2; dt_hour := 3; dt_minute := 4;
     dt_second := 5; dt_nanos := 0 |}.

Definition numbered (prefix : string) (n : nat) : string :=
  prefix ++ string_of_list_ascii (decimal_digits (Z.of_nat n)).

(** Scenario S1 of the spec. *)
Definition inputs_hello : list (string * list Z * DateTime) :=
  [("/HELLO.TXT", string_bytes "Hello, World!", ts_2024)].

(** Scenario S2 of the spec. *)
Definition inputs_one_two : list (string * list Z * DateTime) :=
  [("/ONE/A", string_bytes "a", ts_2024); ("/ONE/B", string_bytes "b", ts_2024);
   ("/TWO/C", string_bytes "c", ts_2024)].

(** Scenario S3 of the spec. *)
Definition inputs_abcd : list (string * list Z * DateTime) :=
  [("/A/B/C/D", string_bytes "x", ts_2024)].

(** 53 empty files [/F10] .. [/F62] in the root: 52 of their 38-byte
    records fit after [.] and [..], the last one opens a second sector. *)
Definition inputs_full_root : list (string * list Z * DateTime) :=
  map (fun n => (numbered "/F" (10 + n), @nil Z, ts_2024)) (seq 0 53).

(** [/X/F] and [/Y/Z/G]: [Z] is a child of the second top-level directory. *)
Definition inputs_xy : list (string * list Z * DateTime) :=
  [("/X/F", string_bytes "f", ts_2024); ("/Y/Z/G", string_bytes "g", ts_2024)].

(** 127 top-level directories [/D100] .. [/D226], then [/E] holding the
    subdirectory [/E/G]: [/E] is group 128. *)
Definition inputs_many_dirs : list (string * list Z * DateTime) :=
  app (map (fun n => (numbered "/D" (100 + n) ++ "/F", @nil Z, ts_2024)) (seq 0 127))
      [("/E/G/F", @nil Z, ts_2024)].

(** The image of scenario S1 with the [location_of_extent] pair of the
    [HELLO.TXT] record (the third record of the root directory at LBA 23,
    the pair at byte 2 of the record) set to [2^21]. *)
Definition image_hello_far_file : list Z :=
  match write_image ts_2024 inputs_hello with
  | Ok img => firstn (Z.to_nat (23 * 2048 + 68 + 2)) img ++ lsbmsb32 (2 ^ 21)
              ++ skipn (Z.to_nat (23 * 2048 + 68 + 10)) img
  | _ => []
  end.

(** One file stamped in the year 2200. *)
Definition inputs_year_2200 : list (string * list Z * DateTime) :=
  [("/A", @nil Z, ts_2200)].

(** The located directory sectors of a write, as (entry, LBA, data length). *)
Definition layout_view (now : DateTime) (inputs : list (string * list Z * DateTime))
    : outcome (list (list (IsoEntry * Z * Z) * SectorProps)) :=
  '(ds, _, _) <- close_layout (writer_of now inputs) now ;;
  Ok (map (fun '(s, p) =>
             (map (fun d => (de_entry d, dh_location_of_extent (de_record d),
                             dh_data_length (de_record d))) s, p)) ds).

(** The L-path-table [close] builds, as (identifier, LBA, parent number). *)
Definition l_table_view (now : DateTime) (inputs : list (string * list Z * DateTime))
    : outcome (list (string * Z * Z)) :=
  '(_, _, pg) <- close_layout (writer_of now inputs) now ;;
  t <- new_l_table pg ;;
  Ok (map (fun e => (pte_directory_id e, pt_location_of_extent (pte_header e),
                     pt_directory_number_of_parent_directory (pte_header e)))
          (table_entries t)).

Definition root_id : string := String (ascii_of_nat 0) EmptyString.

Definition image_length (now : DateTime) (inputs : list (string * list Z * DateTime))
    : outcome Z :=
  img <- write_image now inputs ;; Ok (Z.of_nat (List.length img)).

Definition image_bytes (now : DateTime) (inputs : list (string * list Z * DateTime))
    (off : Z) (n : nat) : outcome (list Z) :=
  img <- write_image now inputs ;; Ok (firstn n (skipn (Z.to_nat off) img)).

Close Scope string_scope.

(** ** Predicates used by the proofs *)

(** The bytes the records of one sector take by their [len()]. *)
Definition sector_size (sector : list IsoDirectoryEntry) : Z :=
  fold_right (fun d acc => de_len d + acc) 0 sector.

(** A record whose [len()] is the number of bytes [write] emits. *)
Definition rec_ok (d : IsoDirectoryEntry) : Prop :=
  0 <= de_len d <= 254 /\ de_write d = de_len d.

(** Path components as [append_file] leaves them: at most 222 characters. *)
Definition comp_ok (c : Component) : Prop := (String.length (component_str c) <= 222)%nat.

Definition paths_ok (files : list FileEntry) : Prop :=
  Forall (fun f => Forall comp_ok (fe_path f)) files.

Definition sector_ok (s : Sector) : Prop :=
  sector_size (fst s) <= LOGICAL_BLOCK_SIZE /\ Forall rec_ok (fst s).

(** The invariant of the records loop of one directory. *)
Definition acc_ok (props : SectorProps) (a : DirsAcc) : Prop :=
  acc_size a = sector_size (acc_sector a) /\ acc_size a <= LOGICAL_BLOCK_SIZE /\
  Forall rec_ok (acc_sector a) /\
  Forall (fun s => snd s = props /\ sector_ok s) (acc_sectors a).

(** The invariant of pass 1: every sector belongs to a group already
    numbered, and is well filled. *)
Definition bs_inv (st : BuildState) : Prop :=
  0 <= bs_group_no st /\
  Forall (fun s => 0 <= group_no (snd s) < bs_group_no st /\ sector_ok s)
    (bs_dirs_sectors st).

(** A run that does not panic on an index out of bounds, and whose
    result, if any, satisfies [P]. *)
Definition no_oob {A} (P : A -> Prop) (m : outcome A) : Prop :=
  match m with
  | Ok x => P x
  | Panic IndexOutOfBounds => False
  | _ => True
  end.

(** What [set_locations] must leave unchanged in a record and a sector. *)
Definition rec_shape (d : IsoDirectoryEntry) : IsoEntry * bool * Z :=
  (de_entry d, de_is_odd d, de_len d).

Definition sector_shape (s : Sector) : list (IsoEntry * bool * Z) * SectorProps :=
  (map rec_shape (fst s), snd s).

(** A value that fits in one byte. *)
Definition byte_ok (x : Z) : Prop := 0 <= x < 256.

(** A directory header whose every field fits its on-disk width. *)
Definition dh_in_range (h : IsoDirectoryHeader) : Prop :=
  byte_ok (dh_length h) /\ byte_ok (dh_extended_attribute_length h) /\
  0 <= dh_location_of_extent h < u32_max /\ 0 <= dh_data_length h < u32_max /\
  Forall byte_ok (IsoDateTime_bytes (dh_datetime h)) /\
  byte_ok (dh_flags h) /\ byte_ok (dh_unit_size h) /\ byte_ok (dh_interleave_gap_size h) /\
  0 <= dh_volume_seq_number h < u16_max /\ byte_ok (dh_file_identifier_length h).

(** A path-table entry whose length field is its identifier's length
    (not zero) and whose fields fit their widths. *)
Definition pte_ok (e : IsoPathTableEntry) : Prop :=
  let h := pte_header e in
  pt_length h = Z.of_nat (String.length (pte_directory_id e)) /\ 0 < pt_length h < 256 /\
  0 <= pt_extended_attribute_length h < 256 /\
  0 <= pt_location_of_extent h < u32_max /\
  0 <= pt_directory_number_of_parent_directory h < u16_max.

(** The [folder_map] of [new_l_table] after the first-level loop started
    at [index]. *)
Fixpoint fm_aux (idx : Z) (l : list (string * Z)) : list ((string * Z) * Z) :=
  match l with
  | [] => []
  | a :: l' => (a, idx + 1) :: fm_aux (idx + 1) l'
  end.

(** The entries [new_l_table (s0 :: rest)] produces: the root, the
    first-level folders with parent 1, then the [i]-th later group with
    parent [i + 2] when a first-level folder [i] exists. *)
Definition l_table_closed (s0 : list (string * Z)) (rest : list (list (string * Z)))
    : list IsoPathTableEntry :=
  IsoPathTableEntry_new 23 1 (String (ascii_of_nat 0) EmptyString)
  :: map (fun f => IsoPathTableEntry_new (snd f) 1 (fst f)) s0
  ++ flat_map (fun ip : nat * list (string * Z) =>
                 let '(i, subs) := ip in
                 if (i <? List.length s0)%nat
                 then map (fun sub => IsoPathTableEntry_new (snd sub) (Z.of_nat i + 2) (fst sub))
                          subs
                 else [])
              (combine (seq 0 (List.length rest)) rest).

(** The [w] low decimal digits of [n] as ASCII bytes, most significant
    first. *)
Definition dec_digits (w : nat) (n : Z) : list Z :=
  map (fun k => 48 + (n / 10 ^ Z.of_nat k) mod 10) (rev (seq 0 w)).

Definition list_Z_eqb (a b : list Z) : bool :=
  if list_eq_dec Z.eq_dec a b then true else false.

(** Every character of a string, or of a path component, satisfies [P]. *)
Definition chars_ok (P : ascii -> Prop) (s : string) : Prop := Forall P (list_ascii_of_string s).
Definition comp_chars_ok (P : ascii -> Prop) (c : Component) : Prop :=
  chars_ok P (component_str c).

(** * Properties *)

(** ** Concrete runs *)

(** C1 (code_bug).  Round trip fails once a directory spans two sectors:
    after writing the 53 empty files [/F10] .. [/F62], the reader stops at
    the zero padding that ends the root's first sector, so [/F62], whose
    record is in the second sector, is not in the entries map, while
    [/F61] is read back. *)
Theorem full_root_second_sector_unread :
  nth_error inputs_full_root 52 = Some ("/F62"%string, [], ts_2024) /\
  match close_layout (writer_of ts_2024 inputs_full_root) ts_2024 with
  | Ok (ds, _, _) =>
      map snd ds = [{| group_no := 0; depth := 0 |}; {| group_no := 0; depth := 0 |}]
  | _ => False
  end /\
  roundtrip_read ts_2024 inputs_full_root "/F62" = Err FileNotFound /\
  roundtrip_read ts_2024 inputs_full_root "/F61" = Ok [].
Proof. vm_compute. repeat split; reflexivity. Qed.


(** C2 (code_bug).  Writing the single file [/A/B/C/D] creates the four
    directories root, [A], [B] and [C] (groups 0 to 3), but the
    L-path-table has only three entries: [C] is dropped, because
    [new_l_table] looks parents up only among the first-level folders. *)
Theorem path_table_abcd_drops_deep_directory :
  match close_layout (writer_of ts_2024 inputs_abcd) ts_2024 with
  | Ok (ds, _, _) => map (fun s => group_no (snd s)) ds = [0; 1; 2; 3]
  | _ => False
  end /\
  l_table_view ts_2024 inputs_abcd =
    Ok [(root_id, 23, 1); ("A"%string, 24, 1); ("B"%string, 25, 2)].
Proof. vm_compute. split; reflexivity. Qed.

(** C3 (code_bug).  For [/X/F] and [/Y/Z/G] the directories are root
    (LBA 23), [X] (24), [Y] (25) and [Z] (26).  The [..] record of [Z]
    points to LBA 24, the first sector of [X], instead of 25, the first
    sector of its parent [Y]: the parent stack is not updated when the
    sector of [Y] follows [X] at the same depth. *)
Theorem parent_record_of_grandchild_wrong :
  layout_view ts_2024 inputs_xy =
    Ok [([(CurrentDirectory, 23, 2048); (ParentDirectory, 23, 2048);
          (Directory "X", 24, 2048); (Directory "Y", 25, 2048)],
         {| group_no := 0; depth := 0 |});
        ([(CurrentDirectory, 24, 2048); (ParentDirectory, 23, 2048); (File "F", 27, 1)],
         {| group_no := 1; depth := 1 |});
        ([(CurrentDirectory, 25, 2048); (ParentDirectory, 23, 2048);
          (Directory "Z", 26, 2048)],
         {| group_no := 2; depth := 1 |});
        ([(CurrentDirectory, 26, 2048); (ParentDirectory, 24, 2048); (File "G", 28, 1)],
         {| group_no := 3; depth := 2 |})].
Proof. vm_compute. reflexivity. Qed.

(** C4 (counterexample).  For scenario S1 ([/HELLO.TXT]) there is one
    directory sector and one file sector, yet the image is not
    [(22 + 1 + 1) * 2048] bytes long: it is [(23 + 1 + 1) * 2048], the
    boot area, PVD, terminator, a reserved sector and two two-sector path
    tables making 23 sectors before the directories. *)
Theorem image_length_hello_not_22 :
  match close_layout (writer_of ts_2024 inputs_hello) ts_2024 with
  | Ok (ds, fs, _) =>
      List.length ds = 1%nat /\ List.length fs = 1%nat /\
      image_length ts_2024 inputs_hello = Ok ((23 + 1 + 1) * 2048) /\
      image_length ts_2024 inputs_hello
        <> Ok ((22 + Z.of_nat (List.length ds) + Z.of_nat (List.length fs)) * 2048)
  | _ => False
  end.
Proof. vm_compute. split; [reflexivity | split; [reflexivity | split; [reflexivity | discriminate]]]. Qed.

Lemma is_ok_Ok {A} (o : outcome A) (d : A) :
  match o with Ok _ => true | _ => false end = true ->
  o = Ok (match o with Ok x => x | _ => d end).
Proof. destruct o; simpl; congruence. Qed.

(** C5 (code_bug).  [read_file] panics on an image that
    [IsoFileReader::read] opens: in [image_hello_far_file] the record of
    [/HELLO.TXT] has extent [2^21], and [IsoDirectoryHeader::location]
    multiplies it by the block size 2048 in [u32] (before the widening to
    the [u64] seek offset), which overflows.  Besides, the path [/ONE] of
    a directory of scenario S2 finds the [.] record of [ONE], so
    [read_file] returns [EntryCurrentDirectory], not [EntryDirectory]. *)
Theorem read_file_far_extent_panics :
  (exists r, IsoFileReader_read image_hello_far_file = Ok r /\
     map_get (r_entries r) (components "/HELLO.TXT") <> None /\
     read_file r "/HELLO.TXT" = Panic ArithOverflow) /\
  roundtrip_read ts_2024 inputs_one_two "/ONE" = Err EntryCurrentDirectory.
Proof.
  split.
  - set (r := match IsoFileReader_read image_hello_far_file with
               | Ok r => r
               | _ => {| r_header := []; r_path_table := LTable []; r_entries := [];
                         r_image := [] |}
               end).
    exists r. split; [apply is_ok_Ok; vm_compute; reflexivity|].
    split; [intros E; vm_compute in E; discriminate E|vm_compute; reflexivity].
  - vm_compute. reflexivity.
Qed.

(** C6 (code_bug).  A file stamped in the year 2200 is written without
    error: [close] returns an image, and the record's year byte is
    [(2200 - 1900) mod 256 = 44], i.e. the year 1944. *)
Theorem year_2200_written_as_1944 :
  image_bytes ts_2024 inputs_year_2200 (23 * 2048 + 68 + 18) 1 = Ok [44].
Proof. vm_compute. reflexivity. Qed.

(** C9 (code_bug).  In scenario S1 the [.] record of the root (LBA 23)
    carries the volume sequence pair [00 01 01 00], i.e. 256 in both
    halves, whereas the root record inside the PVD carries
    [01 00 00 01], i.e. 1. *)
Theorem volume_sequence_256_in_records :
  image_bytes ts_2024 inputs_hello (23 * 2048 + 28) 4 = Ok [0; 1; 1; 0] /\
  image_bytes ts_2024 inputs_hello (16 * 2048 + 156 + 28) 4 = Ok [1; 0; 0; 1].
Proof. vm_compute. split; reflexivity. Qed.

(** ** Byte encodings *)

Lemma firstn_app_len {A} (l1 l2 : list A) (n : nat) :
  List.length l1 = n -> firstn n (l1 ++ l2) = l1.
Proof.
  intros <-. induction l1 as [|x l1 IH]; simpl; [reflexivity | now rewrite IH].
Qed.

Lemma skipn_app_len {A} (l1 l2 : list A) (n : nat) :
  List.length l1 = n -> skipn n (l1 ++ l2) = l2.
Proof.
  intros <-. induction l1 as [|x l1 IH]; simpl; [reflexivity | exact IH].
Qed.

Lemma le_bytes_length (n : nat) (v : Z) : List.length (le_bytes n v) = n.
Proof.
  revert v. induction n as [|n IH]; intros v; simpl; [reflexivity | now rewrite IH].
Qed.

Lemma le_bytes_bytes (n : nat) (v : Z) : Forall (fun b => 0 <= b < 256) (le_bytes n v).
Proof.
  revert v. induction n as [|n IH]; intros v; simpl; constructor; auto.
  apply Z.mod_pos_bound. lia.
Qed.

(** Bytes in [0, 256) are recovered from their little-endian value. *)
Lemma le_bytes_le_value (bs : list Z) :
  Forall (fun b => 0 <= b < 256) bs -> le_bytes (List.length bs) (le_value bs) = bs.
Proof.
  induction 1 as [|b bs Hb _ IH]; [reflexivity|].
  cbn [List.length le_bytes le_value].
  assert (Hm : (b + 256 * le_value bs) mod 256 = b).
  { rewrite Z.mul_comm, Z_mod_plus_full. apply Z.mod_small. lia. }
  assert (Hd : (b + 256 * le_value bs) / 256 = le_value bs).
  { rewrite Z.mul_comm, Z.div_add by lia. rewrite Z.div_small by lia. lia. }
  now rewrite Hm, Hd, IH.
Qed.

Lemma le_value_le_bytes (n : nat) (v : Z) :
  0 <= v -> le_value (le_bytes n v) = v mod 256 ^ Z.of_nat n.
Proof.
  revert v. induction n as [|n IH]; intros v Hv; cbn [le_bytes le_value].
  - simpl. now rewrite Z.mod_1_r.
  - rewrite IH by (apply Z.div_pos; lia).
    rewrite Nat2Z.inj_succ, Z.pow_succ_r by lia.
    rewrite Z.rem_mul_r by (try apply Z.pow_pos_nonneg; lia). lia.
Qed.

(** The bytes of [to_be n v] are the bytes of [v] reversed. *)
Lemma le_bytes_to_be (n : nat) (v : Z) : le_bytes n (to_be n v) = rev (le_bytes n v).
Proof.
  unfold to_be.
  rewrite <- (le_bytes_length n v) at 1. rewrite <- length_rev.
  apply le_bytes_le_value. apply Forall_rev, le_bytes_bytes.
Qed.

Lemma pte_bytes_split (e : IsoPathTableEntry) :
  IsoPathTableEntry_bytes e =
    [pt_length (pte_header e); pt_extended_attribute_length (pte_header e)]
    ++ le_bytes 4 (pt_location_of_extent (pte_header e))
    ++ le_bytes 2 (pt_directory_number_of_parent_directory (pte_header e))
    ++ (string_bytes (pte_directory_id e)
        ++ (if Z.odd (pt_length (pte_header e)) then [0] else [])).
Proof. reflexivity. Qed.

(** C8 (confirmed).  For every L-path-table, [convert_to_m_table] keeps the
    number of entries and their identifiers in order; in the serialised
    form of each entry, the 4 bytes of the extent LBA and the 2 bytes of
    the parent directory number are the reverse of the L-table's, and all
    other bytes (the two length bytes in front, the identifier and its
    padding behind) are identical. *)
Theorem m_table_mirrors_l_table (es : list IsoPathTableEntry) :
  let ms := table_entries (convert_to_m_table (LTable es)) in
  List.length ms = List.length es /\
  map pte_directory_id ms = map pte_directory_id es /\
  Forall2 (fun l m =>
      let bl := IsoPathTableEntry_bytes l in
      let bm := IsoPathTableEntry_bytes m in
      firstn 2 bm = firstn 2 bl /\
      firstn 4 (skipn 2 bm) = rev (firstn 4 (skipn 2 bl)) /\
      firstn 2 (skipn 6 bm) = rev (firstn 2 (skipn 6 bl)) /\
      skipn 8 bm = skipn 8 bl) es ms.
Proof.
  cbn zeta. cbn [table_entries convert_to_m_table].
  split; [apply length_map|]. split.
  - rewrite map_map. apply map_ext. reflexivity.
  - induction es as [|e es IH]; cbn [map]; constructor; [|exact IH].
    rewrite !pte_bytes_split. unfold swap_entry.
    cbn [pte_header pte_directory_id pt_length pt_extended_attribute_length
         pt_location_of_extent pt_directory_number_of_parent_directory].
    rewrite !le_bytes_to_be.
    cbn [app firstn skipn].
    repeat split;
      repeat first [ rewrite skipn_app_len by (rewrite ?length_rev; apply le_bytes_length)
                   | rewrite firstn_app_len by (rewrite ?length_rev; apply le_bytes_length) ];
      reflexivity.
Qed.

(** ** Outcomes *)

Lemma bind_Ok {A B} (m : outcome A) (k : A -> outcome B) (y : B) :
  bind m k = Ok y -> exists x, m = Ok x /\ k x = Ok y.
Proof. destruct m; simpl; try discriminate. eauto. Qed.

Lemma Ok_inj {A} (a b : A) : Ok a = Ok b -> a = b.
Proof. congruence. Qed.

Lemma unwrap_Ok {A} (o : option A) (x : A) : unwrap o = Ok x -> o = Some x.
Proof. destruct o; simpl; congruence. Qed.

Lemma expect_Ok {A} (o : option A) (msg : string) (x : A) : expect o msg = Ok x -> o = Some x.
Proof. destruct o; simpl; congruence. Qed.

(** Splitting the hypotheses [bind m k = Ok y] of a successful run. *)
Ltac inv_ok :=
  repeat match goal with
  | H : bind _ _ = Ok _ |- _ =>
      apply bind_Ok in H; destruct H as [? [? H]]
  | H : match ?p with pair _ _ => _ end = Ok _ |- _ =>
      destruct p; cbv beta match in H
  | H : Ok _ = Ok _ |- _ => inversion H; clear H; subst
  end.

(** ** Directory records *)

Lemma string_bytes_length (s : string) : List.length (string_bytes s) = String.length s.
Proof. unfold string_bytes. rewrite length_map. induction s; simpl; auto. Qed.

Lemma header_bytes_length (h : IsoDirectoryHeader) :
  List.length (IsoDirectoryHeader_bytes h) = 33%nat.
Proof. reflexivity. Qed.

Lemma land_254 (x : Z) : 0 <= x < 256 -> Z.land x 254 = x - x mod 2.
Proof.
  intros Hx.
  assert (Hall : forallb (fun n => Z.land (Z.of_nat n) 254 =? Z.of_nat n - Z.of_nat n mod 2)
                   (seq 0 256) = true) by (vm_compute; reflexivity).
  rewrite forallb_forall in Hall.
  specialize (Hall (Z.to_nat x)). rewrite Z2Nat.id in Hall by lia.
  apply Z.eqb_eq, Hall, in_seq. lia.
Qed.

(** Every record [IsoDirectoryEntry::new] builds for a name shorter than
    256 bytes has an even [len()] of at most 254, and [write] emits
    exactly that many bytes. *)
Lemma new_rec_ok (off len : Z) (ts : DateTime) (e : IsoEntry) (d : IsoDirectoryEntry) :
  (String.length (IsoEntry_name e) < 256)%nat ->
  IsoDirectoryEntry_new off len ts e = Ok d -> rec_ok d.
Proof.
  intros Hn H. unfold IsoDirectoryEntry_new, u8_add in H.
  assert (Hu : as_u8 (Z.of_nat (String.length (IsoEntry_name e)))
               = Z.of_nat (String.length (IsoEntry_name e)))
    by (unfold as_u8; apply Z.mod_small; lia).
  rewrite Hu in H.
  remember (Z.of_nat (String.length (IsoEntry_name e))) as n eqn:Hneq.
  remember (33 + n) as r eqn:Hr.
  destruct (r <? u8_max) eqn:E1; [|discriminate]. cbn [bind] in H.
  destruct (r + 1 <? u8_max) eqn:E2; [|discriminate]. cbn [bind] in H.
  unfold IsoDateTime_try_from, expect in H. cbn [bind] in H. injection H as <-.
  apply Z.ltb_lt in E1, E2. unfold u8_max in *.
  unfold rec_ok, de_len, de_write, de_write_bytes.
  cbv beta iota delta [de_record de_entry de_is_odd dh_length].
  rewrite !length_app, header_bytes_length, string_bytes_length.
  rewrite land_254 by lia.
  destruct (Z.eqb_spec r (r + 1 - (r + 1) mod 2));
    simpl negb; cbn [List.length]; Z.div_mod_to_equations; lia.
Qed.

(** ** Pass 1: sectors and groups *)

Lemma sector_size_app (l1 l2 : list IsoDirectoryEntry) :
  sector_size (l1 ++ l2) = sector_size l1 + sector_size l2.
Proof.
  unfold sector_size. induction l1 as [|d l1 IH]; simpl; [reflexivity|].
  rewrite IH. lia.
Qed.

(** [push_record] keeps every sector within one logical block. *)
Lemma push_record_ok (props : SectorProps) (a : DirsAcc) (d : IsoDirectoryEntry) :
  acc_ok props a -> rec_ok d -> acc_ok props (push_record props a d).
Proof.
  intros (Hs & Hle & Hr & Hss) Hd. pose proof Hd as (Hdl & _).
  unfold push_record, LOGICAL_BLOCK_SIZE in *.
  destruct (acc_size a + de_len d >? 2048) eqn:E; unfold acc_ok; cbn [acc_size acc_sector acc_sectors].
  - repeat split.
    + unfold sector_size. simpl. lia.
    + unfold LOGICAL_BLOCK_SIZE. lia.
    + constructor; auto.
    + apply Forall_app. split; [exact Hss|].
      constructor; [|constructor]. split; [reflexivity|].
      split; [simpl; unfold LOGICAL_BLOCK_SIZE; lia | exact Hr].
  - rewrite Z.gtb_ltb in E. apply Z.ltb_ge in E.
    repeat split.
    + rewrite sector_size_app. unfold sector_size at 2. simpl. lia.
    + unfold LOGICAL_BLOCK_SIZE. lia.
    + apply Forall_app. split; [exact Hr | constructor; auto].
    + exact Hss.
Qed.

Lemma last_in (p : PathBuf) (s : string) : last p RootDir = Normal s -> In (Normal s) p.
Proof.
  induction p as [|c p IH]; simpl; [discriminate|].
  destruct p as [|c' p'].
  - intros H. left. exact H.
  - intros H. right. apply IH. exact H.
Qed.

Lemma file_name_in (p : PathBuf) (s : string) : file_name p = Some s -> In (Normal s) p.
Proof.
  unfold file_name. destruct (last p RootDir) eqn:E; try discriminate.
  intros H. injection H as <-. now apply last_in.
Qed.

Lemma string_length_append (s1 s2 : string) :
  String.length (s1 ++ s2) = (String.length s1 + String.length s2)%nat.
Proof. induction s1 as [|c s1 IH]; simpl; auto. Qed.

Lemma build_files_ok (props : SectorProps) (entries : list FileEntry) :
  forall a fs a' fs',
  paths_ok entries -> acc_ok props a ->
  build_files props entries a fs = Ok (a', fs') -> acc_ok props a'.
Proof.
  induction entries as [|e rest IH]; intros a fs a' fs' Hp Ha H; cbn [build_files] in H.
  - injection H as <- _. exact Ha.
  - inversion Hp as [|? ? He Hrest]; subst.
    destruct (Nat.eqb _ _); [|eapply IH; eauto].
    apply bind_Ok in H. destruct H as (nm & Hnm & H).
    apply bind_Ok in H. destruct H as (d & Hd & H).
    eapply IH; [exact Hrest| |exact H].
    apply push_record_ok; [exact Ha|].
    apply unwrap_Ok, file_name_in in Hnm.
    eapply new_rec_ok; [|exact Hd].
    rewrite Forall_forall in He. specialize (He _ Hnm). unfold comp_ok in He.
    simpl in He. simpl IsoEntry_name. rewrite string_length_append. simpl. lia.
Qed.

Lemma build_folders_ok (props : SectorProps) (now : DateTime) (entries : list FileEntry) :
  forall a folders a' folders',
  paths_ok entries -> acc_ok props a ->
  build_folders props now entries a folders = Ok (a', folders') -> acc_ok props a'.
Proof.
  induction entries as [|e rest IH]; intros a fo a' fo' Hp Ha H; cbn [build_folders] in H.
  - injection H as <- _. exact Ha.
  - inversion Hp as [|? ? He Hrest]; subst.
    destruct (Nat.ltb _ _); [|eapply IH; eauto].
    apply bind_Ok in H. destruct H as (c & Hc & H).
    destruct (existsb _ _); [eapply IH; eauto|].
    apply bind_Ok in H. destruct H as (d & Hd & H).
    eapply IH; [exact Hrest| |exact H].
    apply push_record_ok; [exact Ha|].
    apply unwrap_Ok, nth_error_In in Hc.
    eapply new_rec_ok; [|exact Hd].
    rewrite Forall_forall in He. specialize (He _ Hc). unfold comp_ok in He.
    simpl IsoEntry_name. lia.
Qed.

(** Every sector [build_dirs] returns carries the directory's
    [(group_no, depth)] and holds whole records within one block. *)
Lemma build_dirs_ok (fe : list FileEntry) (fs : list (list Z)) (g d : Z) (now : DateTime)
    (secs : list Sector) (folders : list string) (fs' : list (list Z)) :
  paths_ok fe ->
  build_dirs fe fs g d now = Ok (secs, folders, fs') ->
  Forall (fun s => snd s = {| group_no := g; depth := d |} /\ sector_ok s) secs.
Proof.
  intros Hp H. unfold build_dirs in H.
  apply bind_Ok in H. destruct H as (cur & Hcur & H).
  apply bind_Ok in H. destruct H as (par & Hpar & H).
  apply bind_Ok in H. destruct H as ([a1 fs1] & H1 & H).
  apply bind_Ok in H. destruct H as ([a2 fo2] & H2 & H).
  injection H as <- _ _.
  apply new_rec_ok in Hcur; [|simpl; lia].
  apply new_rec_ok in Hpar; [|simpl; lia].
  assert (Ha0 : acc_ok {| group_no := g; depth := d |}
                  {| acc_sector := [cur; par]; acc_sectors := [];
                     acc_size := de_len cur + de_len par |}).
  { pose proof Hcur as [Hc1 _]. pose proof Hpar as [Hp1 _].
    unfold acc_ok, sector_size, LOGICAL_BLOCK_SIZE; cbn [acc_size acc_sector acc_sectors fold_right].
    split; [lia|]. split; [lia|]. split; [auto | constructor]. }
  apply build_files_ok in H1; [|exact Hp|exact Ha0].
  apply build_folders_ok in H2; [|exact Hp|exact H1].
  destruct H2 as (Hs & Hle & Hr & Hss).
  apply Forall_app. split; [exact Hss|].
  constructor; [|constructor]. split; [reflexivity|].
  split; [simpl; lia | exact Hr].
Qed.

Lemma strip_prefix_app (base p r : PathBuf) : strip_prefix base p = Some r -> p = base ++ r.
Proof.
  revert p. induction base as [|b base IH]; intros p H; simpl in H.
  - injection H as <-. reflexivity.
  - destruct p as [|c p]; [discriminate|].
    destruct (Component_eq_dec b c) as [<-|]; [|discriminate].
    simpl. f_equal. apply IH. exact H.
Qed.

(** The entries [build_sectors] hands to [build_dirs] keep short components. *)
Lemma filtered_paths_ok (base : PathBuf) (bo : option PathBuf) (files : list FileEntry) :
  paths_ok files ->
  paths_ok (flat_map (fun t =>
      match strip_prefix base (fe_path t) with
      | Some rest =>
          [{| fe_path := match bo with Some _ => RootDir :: rest | None => fe_path t end;
              fe_content := fe_content t; fe_timestamp := fe_timestamp t |}]
      | None => []
      end) files).
Proof.
  unfold paths_ok. induction 1 as [|t files Ht _ IH]; simpl; [constructor|].
  destruct (strip_prefix base (fe_path t)) as [rest|] eqn:E; simpl; [|exact IH].
  constructor; [|exact IH]. simpl.
  apply strip_prefix_app in E.
  destruct bo.
  - constructor; [unfold comp_ok; simpl; lia|].
    rewrite E in Ht. apply Forall_app in Ht. tauto.
  - exact Ht.
Qed.

(** An invariant and a preorder kept by every recursive call are kept by
    the folders loop. *)
Lemma build_subdirs_ind (I : BuildState -> Prop) (R : BuildState -> BuildState -> Prop)
    (rec : string -> BuildState -> outcome BuildState) :
  (forall s, R s s) -> (forall s1 s2 s3, R s1 s2 -> R s2 s3 -> R s1 s3) ->
  (forall f s s', rec f s = Ok s' -> I s -> I s' /\ R s s') ->
  forall folders st st', build_subdirs rec folders st = Ok st' -> I st -> I st' /\ R st st'.
Proof.
  intros Hrefl Htrans Hrec folders. induction folders as [|f rest IH]; intros st st' H Hi;
    cbn [build_subdirs] in H.
  - injection H as <-. auto.
  - apply bind_Ok in H. destruct H as (s1 & H1 & H).
    destruct (Hrec _ _ _ H1 Hi) as [Hi1 HR1].
    destruct (IH _ _ H Hi1) as [Hi2 HR2]. eauto.
Qed.

Lemma bs_inv_step (st : BuildState) (news : list Sector) (fs : list (list Z)) (d : Z) :
  bs_inv st ->
  Forall (fun s => snd s = {| group_no := bs_group_no st; depth := d |} /\ sector_ok s) news ->
  bs_inv {| bs_dirs_sectors := bs_dirs_sectors st ++ news; bs_files_sectors := fs;
            bs_group_no := bs_group_no st + 1 |}.
Proof.
  intros [Hg Hall] Hnew. unfold bs_inv; cbn [bs_group_no bs_dirs_sectors].
  split; [lia|]. apply Forall_app. split.
  - eapply Forall_impl; [|exact Hall]. intros s [Hs Ho]. split; [lia | exact Ho].
  - eapply Forall_impl; [|exact Hnew]. intros s [-> Ho]. simpl. split; [lia | exact Ho].
Qed.

Lemma bs_inv_weaken (st st' : BuildState) :
  bs_group_no st <= bs_group_no st' -> bs_dirs_sectors st = bs_dirs_sectors st' ->
  bs_inv st -> bs_inv st'.
Proof.
  intros Hle Hd [Hg Hall]. split; [lia|]. rewrite <- Hd.
  eapply Forall_impl; [|exact Hall]. intros s [Hs Ho]. split; [lia | exact Ho].
Qed.

(** Pass 1 keeps [bs_inv], and the group counter only grows. *)
Lemma build_sectors_ok (files : list FileEntry) :
  paths_ok files ->
  forall fuel depth bo now st st',
  build_sectors fuel files depth bo now st = Ok st' ->
  bs_inv st -> bs_inv st' /\ bs_group_no st <= bs_group_no st'.
Proof.
  intros Hp fuel. induction fuel as [|fuel IH]; intros depth bo now st st' H Hi;
    cbn [build_sectors] in H; [discriminate|].
  apply bind_Ok in H. destruct H as ([[news folders] fs'] & Hb & H).
  cbv beta match in H.
  apply build_dirs_ok in Hb; [|apply filtered_paths_ok; exact Hp].
  pose proof (bs_inv_step st news fs' depth Hi Hb) as Hi1.
  eapply (build_subdirs_ind bs_inv (fun s s' => bs_group_no s <= bs_group_no s'))
    in H; [| intros; lia | intros; lia | | exact Hi1].
  - destruct H as [Hi2 Hle]. split; [exact Hi2|]. simpl in Hle. lia.
  - intros f s s' Hs Hinv. eapply IH; eauto.
Qed.

Lemma close_plan_ok (files : list FileEntry) (now : DateTime) (st : BuildState) :
  paths_ok files -> close_plan files now = Ok st -> bs_inv st.
Proof.
  intros Hp H. unfold close_plan in H.
  eapply build_sectors_ok in H; [apply H | exact Hp |].
  unfold bs_inv, build_state_init. simpl. split; [lia | constructor].
Qed.

(** ** Staging keeps path components within 222 characters *)

Lemma string_of_list_ascii_length (l : list ascii) :
  String.length (string_of_list_ascii l) = List.length l.
Proof. induction l as [|c l IH]; simpl; auto. Qed.

Lemma list_ascii_of_string_length (s : string) :
  List.length (list_ascii_of_string s) = String.length s.
Proof. induction s as [|c s IH]; simpl; auto. Qed.

Lemma split_slash_aux_short (s : string) (cur : list ascii) :
  Forall (fun p => (String.length p <= String.length s + List.length cur)%nat)
    (split_slash_aux s cur).
Proof.
  revert cur. induction s as [|c s IH]; intros cur; simpl.
  - constructor; [|constructor]. rewrite string_of_list_ascii_length, length_rev. lia.
  - destruct (Ascii.eqb c "/").
    + constructor.
      * rewrite string_of_list_ascii_length, length_rev. lia.
      * eapply Forall_impl; [|apply IH]. simpl. intros p Hp. lia.
    + eapply Forall_impl; [|apply IH]. simpl. intros p Hp. lia.
Qed.

Lemma components_short (s : string) :
  (String.length s <= 222)%nat -> Forall comp_ok (components s).
Proof.
  intros Hs.
  assert (Hp : Forall (fun p => (String.length p <= 222)%nat) (split_slash s)).
  { eapply Forall_impl; [|apply split_slash_aux_short]. simpl. intros p Hp. lia. }
  assert (Hpc : forall p, (String.length p <= 222)%nat -> Forall comp_ok (piece_component p)).
  { intros p Hl. unfold piece_component.
    destruct (String.eqb p EmptyString); [constructor|].
    destruct (String.eqb p "."); [constructor|].
    destruct (String.eqb p "..");
      (apply Forall_cons; [unfold comp_ok; simpl; lia | apply Forall_nil]). }
  assert (Hfm : forall ps, Forall (fun p => (String.length p <= 222)%nat) ps ->
                           Forall comp_ok (flat_map piece_component ps)).
  { induction 1; simpl; [constructor|]. apply Forall_app. auto. }
  unfold components. destruct (has_root s).
  - constructor; [unfold comp_ok; simpl; lia | auto].
  - destruct (split_slash s) as [|p ps]; [constructor|].
    inversion Hp; subst. apply Forall_app. split; [|auto].
    destruct (String.eqb p ".");
      [apply Forall_cons; [unfold comp_ok; simpl; lia | apply Forall_nil] | auto].
Qed.

Lemma path_join_short (base : PathBuf) (s : string) :
  Forall comp_ok base -> (String.length s <= 222)%nat -> Forall comp_ok (path_join base s).
Proof.
  intros Hb Hs. pose proof (components_short s Hs) as Hc. unfold path_join.
  destruct (components s) as [|c cs] eqn:E.
  - destruct base; [constructor|]. rewrite app_nil_r. exact Hb.
  - assert (Hdef : Forall comp_ok (match base with
                                   | [] => c :: cs
                                   | _ => base ++ filter not_curdir (c :: cs) end)).
    { destruct base; [exact Hc|]. apply Forall_app. split; [exact Hb|].
      rewrite Forall_forall in Hc |- *. intros x Hx. apply filter_In in Hx. apply Hc, Hx. }
    destruct c; exact Hc || exact Hdef.
Qed.

Lemma take_string_short (n : nat) (s : string) : (String.length (take_string n s) <= n)%nat.
Proof.
  unfold take_string. rewrite string_of_list_ascii_length, length_firstn. lia.
Qed.

Lemma append_file_path_ok (path : string) : Forall comp_ok (append_file_path path).
Proof.
  unfold append_file_path.
  generalize (@nil Component) (Forall_nil comp_ok).
  induction (components _) as [|c cs IH]; intros base Hb; simpl; [exact Hb|].
  apply IH. apply path_join_short; [exact Hb | apply take_string_short].
Qed.

(** The files of a staged writer have short path components. *)
Lemma writer_of_paths_ok (now : DateTime) (inputs : list (string * list Z * DateTime)) :
  paths_ok (w_files (writer_of now inputs)).
Proof.
  unfold writer_of.
  assert (H : forall w, paths_ok (w_files w) ->
    paths_ok (w_files (fold_left (fun w '(p, c, t) => IsoFileWriter_append_file w p c t)
                         inputs w))).
  { induction inputs as [|[[p c] t] rest IH]; intros w Hw; simpl; [exact Hw|].
    apply IH. simpl. unfold append_file, paths_ok. apply Forall_app. split; [exact Hw|].
    constructor; [apply append_file_path_ok | constructor]. }
  apply H. constructor.
Qed.

(** ** Pass 2: the count stack and the record shapes *)

Lemma no_oob_bind {A B} (P : A -> Prop) (Q : B -> Prop) (m : outcome A) (k : A -> outcome B) :
  no_oob P m -> (forall x, P x -> no_oob Q (k x)) -> no_oob Q (bind m k).
Proof. destruct m as [a|e|[]|]; simpl; auto. Qed.

Lemma no_oob_ne {A} (P : A -> Prop) (m : outcome A) : no_oob P m -> m <> Panic IndexOutOfBounds.
Proof. destruct m as [a|e|[]|]; simpl; congruence. Qed.

Lemma Groups_get_no_oob (groups : list GroupValues) (i : Z) :
  no_oob (fun _ => True) (Groups_get groups i).
Proof.
  unfold Groups_get, expect. destruct (i <? 0); [exact I|].
  destruct (nth_error _ _); exact I.
Qed.

Lemma pds_set_no_oob (groups stack : list GroupValues) (props : SectorProps) :
  no_oob (fun _ => True) (pds_set groups stack props).
Proof.
  unfold pds_set. destruct (negb _); [|exact I]. destruct (_ <? _); [|exact I].
  eapply no_oob_bind; [apply Groups_get_no_oob | intros; exact I].
Qed.

Lemma pds_get_no_oob (stack : list GroupValues) : no_oob (fun _ => True) (pds_get stack).
Proof.
  unfold pds_get, unwrap, expect. destruct (Nat.eqb _ _).
  - destruct (hd_error stack); exact I.
  - destruct (nth_error stack 1); exact I.
Qed.

Lemma list_set_length {A} (l : list A) (n : nat) (x : A) :
  List.length (list_set l n x) = List.length l.
Proof. revert n. induction l as [|y l IH]; intros [|n]; simpl; auto. Qed.

Lemma find_subdir_group_no_oob (groups : list GroupValues) (props : SectorProps) :
  0 <= group_no props < COUNT_STACK_LEN ->
  forall fuel cs, List.length cs = Z.to_nat COUNT_STACK_LEN ->
  no_oob (fun r => List.length (snd r) = Z.to_nat COUNT_STACK_LEN)
    (find_subdir_group fuel groups props cs).
Proof.
  intros Hg fuel. induction fuel as [|fuel IH]; intros cs Hcs; cbn [find_subdir_group];
    [exact I|].
  unfold array_get. rewrite Hcs.
  replace ((0 <=? group_no props) && (group_no props <? Z.of_nat (Z.to_nat COUNT_STACK_LEN)))
    with true by (symmetry; apply andb_true_iff; split; [apply Z.leb_le | apply Z.ltb_lt];
                  unfold COUNT_STACK_LEN in *; lia).
  cbn [bind].
  eapply no_oob_bind; [apply Groups_get_no_oob|]. intros g _.
  destruct (gv_depth g =? depth props + 1); simpl.
  - rewrite list_set_length. exact Hcs.
  - apply IH. rewrite list_set_length. exact Hcs.
Qed.

Lemma locate_record_no_oob (start cnt : Z) (groups stack : list GroupValues)
    (props : SectorProps) (cs : list Z) (pg : list (string * Z)) (d : IsoDirectoryEntry) :
  0 <= group_no props < COUNT_STACK_LEN -> List.length cs = Z.to_nat COUNT_STACK_LEN ->
  no_oob (fun r => List.length (snd (fst r)) = Z.to_nat COUNT_STACK_LEN)
    (locate_record start cnt groups stack props cs pg d).
Proof.
  intros Hg Hcs. unfold locate_record. destruct (de_entry d).
  - eapply no_oob_bind; [apply Groups_get_no_oob | intros; exact Hcs].
  - eapply no_oob_bind; [apply pds_get_no_oob | intros; exact Hcs].
  - eapply no_oob_bind; [apply find_subdir_group_no_oob; assumption|].
    intros [g cs'] H. exact H.
  - exact Hcs.
Qed.

Lemma locate_sector_no_oob (start cnt : Z) (groups stack : list GroupValues)
    (props : SectorProps) :
  0 <= group_no props < COUNT_STACK_LEN ->
  forall sector cs pg, List.length cs = Z.to_nat COUNT_STACK_LEN ->
  no_oob (fun r => List.length (snd (fst r)) = Z.to_nat COUNT_STACK_LEN)
    (locate_sector start cnt groups stack props cs pg sector).
Proof.
  intros Hg sector. induction sector as [|d rest IH]; intros cs pg Hcs; cbn [locate_sector];
    [exact Hcs|].
  eapply no_oob_bind; [apply locate_record_no_oob; assumption|].
  intros [[d' cs'] pg'] H. simpl in H.
  eapply no_oob_bind; [apply IH; exact H|].
  intros [[rest' cs''] pg''] H'. exact H'.
Qed.

(** [set_locations] indexes its count stack in bounds when every sector
    belongs to a group numbered below 128. *)
Lemma locate_sectors_no_oob (start cnt : Z) (groups : list GroupValues) :
  forall sectors stack cs,
  Forall (fun s => 0 <= group_no (snd s) < COUNT_STACK_LEN) sectors ->
  List.length cs = Z.to_nat COUNT_STACK_LEN ->
  no_oob (fun _ => True) (locate_sectors start cnt groups stack cs sectors).
Proof.
  induction sectors as [|[sector props] rest IH]; intros stack cs Hall Hcs;
    cbn [locate_sectors]; [exact I|].
  inversion Hall as [|? ? Hp Hrest]; subst.
  eapply no_oob_bind; [apply pds_set_no_oob|]. intros stack' _.
  eapply no_oob_bind; [apply locate_sector_no_oob; assumption|].
  intros [[sector' cs'] pg] H. simpl in H.
  eapply no_oob_bind; [apply IH; assumption|].
  intros [rest' pgs] _. exact I.
Qed.

(** C10 (confirmed).  Pass 1 numbers the directories [0, 1, ...]
    ([bs_group_no] counts them), and [set_locations] reads
    [count_stack[group_no]] of a fixed 128-slot array.  For every staged
    file set with at most 128 directories this read is always in bounds,
    whatever the start location; the staged set [inputs_many_dirs], with
    130 directories, makes [set_locations] (and so [close()]) panic with an
    index out of bounds. *)
Theorem count_stack_bounds :
  (forall (now : DateTime) (inputs : list (string * list Z * DateTime))
          (st : BuildState) (start : Z),
     close_plan (w_files (writer_of now inputs)) now = Ok st ->
     bs_group_no st <= COUNT_STACK_LEN ->
     set_locations start (bs_dirs_sectors st) <> Panic IndexOutOfBounds) /\
  (exists st,
     close_plan (w_files (writer_of ts_2024 inputs_many_dirs)) ts_2024 = Ok st /\
     bs_group_no st = 130 /\ COUNT_STACK_LEN < bs_group_no st /\
     set_locations 23 (bs_dirs_sectors st) = Panic IndexOutOfBounds /\
     write_image ts_2024 inputs_many_dirs = Panic IndexOutOfBounds).
Proof.
  split.
  - intros now inputs st start Hplan Hle.
    apply close_plan_ok in Hplan; [|apply writer_of_paths_ok].
    destruct Hplan as [_ Hall].
    eapply no_oob_ne. apply locate_sectors_no_oob; [|reflexivity].
    eapply Forall_impl; [|exact Hall]. intros s [Hs _]. lia.
  - exists (match close_plan (w_files (writer_of ts_2024 inputs_many_dirs)) ts_2024 with
            | Ok st => st | _ => build_state_init end).
    vm_compute. repeat split; reflexivity.
Qed.

Lemma count_stack_bounds_witness :
  let st := match close_plan (w_files (writer_of ts_2024 inputs_xy)) ts_2024 with
            | Ok st => st | _ => build_state_init end in
  close_plan (w_files (writer_of ts_2024 inputs_xy)) ts_2024 = Ok st /\
  bs_group_no st = 4 /\
  bs_group_no st <= COUNT_STACK_LEN /\
  set_locations 23 (bs_dirs_sectors st) <> Panic IndexOutOfBounds.
Proof.
  intros st.
  assert (H1 : close_plan (w_files (writer_of ts_2024 inputs_xy)) ts_2024 = Ok st)
    by (vm_compute; reflexivity).
  assert (H4 : bs_group_no st = 4) by (vm_compute; reflexivity).
  assert (H2 : bs_group_no st <= COUNT_STACK_LEN) by (rewrite H4; unfold COUNT_STACK_LEN; lia).
  split; [exact H1|]. split; [exact H4|]. split; [exact H2|].
  exact (proj1 count_stack_bounds ts_2024 inputs_xy st 23 H1 H2).
Defined.

Lemma locate_record_shape (start cnt : Z) (groups stack : list GroupValues)
    (props : SectorProps) (cs : list Z) (pg : list (string * Z)) (d : IsoDirectoryEntry)
    (d' : IsoDirectoryEntry) (cs' : list Z) (pg' : list (string * Z)) :
  locate_record start cnt groups stack props cs pg d = Ok (d', cs', pg') ->
  rec_shape d' = rec_shape d.
Proof.
  unfold locate_record. destruct (de_entry d) eqn:E; intros H.
  - apply bind_Ok in H. destruct H as (g & _ & H). injection H as <- _ _. reflexivity.
  - apply bind_Ok in H. destruct H as (g & _ & H). injection H as <- _ _. reflexivity.
  - apply bind_Ok in H. destruct H as ([g cs0] & _ & H). injection H as <- _ _. reflexivity.
  - injection H as <- _ _. reflexivity.
Qed.

Lemma locate_sector_shape (start cnt : Z) (groups stack : list GroupValues)
    (props : SectorProps) :
  forall sector cs pg sector' cs' pg',
  locate_sector start cnt groups stack props cs pg sector = Ok (sector', cs', pg') ->
  map rec_shape sector' = map rec_shape sector.
Proof.
  induction sector as [|d rest IH]; intros cs pg sector' cs' pg' H; cbn [locate_sector] in H.
  - injection H as <- _ _. reflexivity.
  - apply bind_Ok in H. destruct H as ([[d1 cs1] pg1] & H1 & H).
    apply bind_Ok in H. destruct H as ([[rest1 cs2] pg2] & H2 & H).
    injection H as <- _ _. simpl.
    rewrite (locate_record_shape _ _ _ _ _ _ _ _ _ _ _ H1), (IH _ _ _ _ _ H2).
    reflexivity.
Qed.

(** [set_locations] changes locations and data lengths only: each sector
    keeps its records' kinds, names, padding and lengths, and its props. *)
Lemma locate_sectors_shape (start cnt : Z) (groups : list GroupValues) :
  forall sectors stack cs sectors' pgs,
  locate_sectors start cnt groups stack cs sectors = Ok (sectors', pgs) ->
  map sector_shape sectors' = map sector_shape sectors.
Proof.
  induction sectors as [|[sector props] rest IH]; intros stack cs sectors' pgs H;
    cbn [locate_sectors] in H.
  - injection H as <- _. reflexivity.
  - apply bind_Ok in H. destruct H as (stack' & _ & H).
    apply bind_Ok in H. destruct H as ([[sector1 cs1] pg1] & H1 & H).
    apply bind_Ok in H. destruct H as ([rest1 pgs1] & H2 & H).
    injection H as <- _. simpl.
    unfold sector_shape at 1 3. simpl.
    rewrite (locate_sector_shape _ _ _ _ _ _ _ _ _ _ _ H1), (IH _ _ _ _ H2).
    reflexivity.
Qed.

Lemma de_write_eq (d : IsoDirectoryEntry) :
  de_write d = 33 + Z.of_nat (String.length (IsoEntry_name (de_entry d)))
               + (if de_is_odd d then 1 else 0).
Proof.
  unfold de_write, de_write_bytes.
  rewrite !length_app, header_bytes_length, string_bytes_length.
  destruct (de_is_odd d); cbn [List.length]; lia.
Qed.

Lemma rec_ok_shape (d d' : IsoDirectoryEntry) :
  rec_shape d' = rec_shape d -> rec_ok d -> rec_ok d'.
Proof.
  unfold rec_shape, rec_ok. intros H. injection H as He Ho Hl.
  rewrite !de_write_eq, He, Ho, Hl. auto.
Qed.

Lemma sector_size_shape (l l' : list IsoDirectoryEntry) :
  map rec_shape l' = map rec_shape l -> sector_size l' = sector_size l.
Proof.
  unfold sector_size. revert l.
  induction l' as [|d' l' IH]; intros [|d l] Hm; simpl in Hm; try discriminate; [reflexivity|].
  assert (Hd : rec_shape d' = rec_shape d) by congruence.
  assert (Hl : map rec_shape l' = map rec_shape l) by congruence.
  simpl. rewrite (IH l Hl). unfold rec_shape in Hd. congruence.
Qed.

Lemma Forall_rec_ok_shape (l l' : list IsoDirectoryEntry) :
  map rec_shape l' = map rec_shape l -> Forall rec_ok l -> Forall rec_ok l'.
Proof.
  revert l.
  induction l' as [|d' l' IH]; intros [|d l] Hm Hr; simpl in Hm; try discriminate;
    [constructor|].
  assert (Hd : rec_shape d' = rec_shape d) by congruence.
  assert (Hl : map rec_shape l' = map rec_shape l) by congruence.
  inversion Hr as [|? ? Hr1 Hr2]; subst.
  constructor; [eapply rec_ok_shape; eauto | eapply IH; eauto].
Qed.

Lemma sector_ok_shape (s s' : Sector) :
  sector_shape s' = sector_shape s -> sector_ok s -> sector_ok s'.
Proof.
  destruct s as [l p], s' as [l' p']. unfold sector_shape, sector_ok. simpl.
  intros H [Hs Hr].
  assert (Hm : map rec_shape l' = map rec_shape l) by congruence.
  rewrite (sector_size_shape l l' Hm). split; [exact Hs|].
  eapply Forall_rec_ok_shape; eauto.
Qed.

(** ** The serializer of directory sectors *)

Lemma sector_size_nonneg (l : list IsoDirectoryEntry) : Forall rec_ok l -> 0 <= sector_size l.
Proof.
  unfold sector_size. induction 1 as [|d l [[Hd _] _] _ IH]; simpl; lia.
Qed.

Lemma write_records_ok (sector : list IsoDirectoryEntry) :
  Forall rec_ok sector ->
  forall size, sector_size sector <= size ->
  write_records size sector = Ok (flat_map de_write_bytes sector, size - sector_size sector).
Proof.
  induction 1 as [|d l Hd Hl IH]; intros size Hle; cbn [write_records flat_map].
  - unfold sector_size. simpl. f_equal. f_equal. lia.
  - pose proof (sector_size_nonneg l Hl) as Hnn.
    destruct Hd as [Hdl Hdw].
    unfold sector_size in Hle. cbn [fold_right] in Hle. fold (sector_size l) in Hle.
    replace (size <? de_write d) with false by (symmetry; apply Z.ltb_ge; lia).
    rewrite (IH (size - de_write d)) by lia. cbn [bind].
    assert (Hss : sector_size (d :: l) = de_len d + sector_size l) by reflexivity.
    rewrite Hss. do 2 f_equal. lia.
Qed.

Lemma write_bytes_length (sector : list IsoDirectoryEntry) :
  Forall rec_ok sector ->
  Z.of_nat (List.length (flat_map de_write_bytes sector)) = sector_size sector.
Proof.
  unfold sector_size. induction 1 as [|d l [_ Hw] _ IH]; [reflexivity|].
  cbn [flat_map fold_right].
  rewrite length_app, Nat2Z.inj_add, IH. unfold de_write in Hw. lia.
Qed.

(** A well-filled sector is written as its records' bytes, then zeros up
    to the end of the block. *)
Lemma write_dir_sector_ok (s : Sector) :
  sector_ok s ->
  write_dir_sector (fst s)
    = Ok (flat_map de_write_bytes (fst s)
          ++ zeros (Z.to_nat (LOGICAL_BLOCK_SIZE - sector_size (fst s)))).
Proof.
  intros [Hs Hr]. unfold write_dir_sector.
  rewrite (write_records_ok (fst s) Hr LOGICAL_BLOCK_SIZE Hs). cbn [bind]. reflexivity.
Qed.

Lemma write_dir_sectors_ok (ds : list Sector) :
  Forall sector_ok ds ->
  write_dir_sectors ds
    = Ok (flat_map (fun s => flat_map de_write_bytes (fst s)
                             ++ zeros (Z.to_nat (LOGICAL_BLOCK_SIZE - sector_size (fst s)))) ds).
Proof.
  induction 1 as [|[sector p] ds Hs _ IH]; [reflexivity|].
  pose proof (write_dir_sector_ok (sector, p) Hs) as Hw. cbn [fst] in Hw.
  cbn [write_dir_sectors]. rewrite Hw. cbn [bind].
  rewrite IH. cbn [bind]. reflexivity.
Qed.

(** The located sectors of a staged writer are all well filled. *)
Lemma close_layout_sectors_ok (now : DateTime) (inputs : list (string * list Z * DateTime))
    (ds : list Sector) (fs : list (list Z)) (pg : list (list (string * Z))) :
  close_layout (writer_of now inputs) now = Ok (ds, fs, pg) -> Forall sector_ok ds.
Proof.
  unfold close_layout. intros H.
  apply bind_Ok in H. destruct H as (st & Hplan & H).
  apply bind_Ok in H. destruct H as ([ds1 pg1] & Hloc & H).
  injection H as <- _ _.
  apply close_plan_ok in Hplan; [|apply writer_of_paths_ok].
  destruct Hplan as [_ Hall].
  unfold set_locations in Hloc. apply locate_sectors_shape in Hloc.
  revert ds1 Hloc. induction Hall as [|s ss [_ Hs] _ IH]; intros [|s1 ds1] Hm;
    simpl in Hm; try discriminate; constructor.
  - eapply sector_ok_shape; [|exact Hs]. congruence.
  - apply IH. congruence.
Qed.

(** C7 (confirmed).  Records never straddle a sector boundary.  (1) For
    entries with staged (at most 222-character) components, every sector
    [build_dirs] returns carries the directory's [(group_no, depth)] and
    its records' lengths sum to at most 2048: a record that does not fit
    opens a new sector with the same props.  (2) For every staged file
    set, every located directory sector is within 2048 bytes, [write]
    emits exactly its records' lengths, the serializer writes it as those
    records followed by zeros up to 2048 bytes, and the directory area of
    the image is the concatenation of these blocks. *)
Theorem directory_sectors_whole_records :
  (forall (fe : list FileEntry) (fs : list (list Z)) (g d : Z) (now : DateTime)
          (secs : list Sector) (folders : list string) (fs' : list (list Z)),
     paths_ok fe ->
     build_dirs fe fs g d now = Ok (secs, folders, fs') ->
     Forall (fun s => snd s = {| group_no := g; depth := d |} /\
                      sector_size (fst s) <= LOGICAL_BLOCK_SIZE) secs) /\
  (forall (now : DateTime) (inputs : list (string * list Z * DateTime))
          (ds : list Sector) (fs : list (list Z)) (pg : list (list (string * Z))),
     close_layout (writer_of now inputs) now = Ok (ds, fs, pg) ->
     Forall (fun s =>
        sector_size (fst s) <= LOGICAL_BLOCK_SIZE /\
        Z.of_nat (List.length (flat_map de_write_bytes (fst s))) = sector_size (fst s) /\
        write_dir_sector (fst s)
          = Ok (flat_map de_write_bytes (fst s)
                ++ zeros (Z.to_nat (LOGICAL_BLOCK_SIZE - sector_size (fst s))))) ds /\
     write_dir_sectors ds
       = Ok (flat_map (fun s => flat_map de_write_bytes (fst s)
                        ++ zeros (Z.to_nat (LOGICAL_BLOCK_SIZE - sector_size (fst s)))) ds)).
Proof.
  split.
  - intros fe fs g d now secs folders fs' Hp H.
    eapply Forall_impl; [|exact (build_dirs_ok fe fs g d now secs folders fs' Hp H)].
    intros s [Hs [Hsz _]]. auto.
  - intros now inputs ds fs pg H.
    pose proof (close_layout_sectors_ok now inputs ds fs pg H) as Hok.
    split; [|apply write_dir_sectors_ok; exact Hok].
    eapply Forall_impl; [|exact Hok]. intros s Hs.
    split; [apply Hs|]. split; [apply write_bytes_length, Hs | apply write_dir_sector_ok, Hs].
Qed.

Lemma directory_sectors_whole_records_witness :
  let fe := w_files (writer_of ts_2024 inputs_full_root) in
  let r := build_dirs fe [] 0 0 ts_2024 in
  let v := match r with Ok v => v | _ => ([], [], []) end in
  let l := close_layout (writer_of ts_2024 inputs_full_root) ts_2024 in
  let lv := match l with Ok v => v | _ => ([], [], []) end in
  paths_ok fe /\ r = Ok v /\ l = Ok lv /\
  List.length (fst (fst v)) = 2%nat /\
  Forall (fun s => snd s = {| group_no := 0; depth := 0 |} /\
                   sector_size (fst s) <= LOGICAL_BLOCK_SIZE) (fst (fst v)) /\
  write_dir_sectors (fst (fst lv))
    = Ok (flat_map (fun s => flat_map de_write_bytes (fst s)
             ++ zeros (Z.to_nat (LOGICAL_BLOCK_SIZE - sector_size (fst s)))) (fst (fst lv))).
Proof.
  intros fe r v l lv.
  assert (Hp : paths_ok fe) by apply writer_of_paths_ok.
  assert (Hr : r = Ok v) by (vm_compute; reflexivity).
  assert (Hl : l = Ok lv) by (vm_compute; reflexivity).
  assert (Hn : List.length (fst (fst v)) = 2%nat) by (vm_compute; reflexivity).
  split; [exact Hp|]. split; [exact Hr|]. split; [exact Hl|]. split; [exact Hn|].
  destruct v as [[secs folders] fs'], lv as [[ds fs] pg].
  split.
  - exact (proj1 directory_sectors_whole_records fe [] 0 0 ts_2024 secs folders fs' Hp Hr).
  - exact (proj2 (proj2 directory_sectors_whole_records ts_2024 inputs_full_root ds fs pg Hl)).
Defined.

(** ** Lengths of the image's parts *)

Lemma fixed_field_length (keep : ascii -> bool) (f : option string) (size : nat) :
  List.length (fixed_field keep f size) = size.
Proof.
  unfold fixed_field. destruct f as [t|]; [|apply repeat_length].
  rewrite length_app, length_firstn, repeat_length, length_map. lia.
Qed.

Lemma fmt_zero_pad_length (w : nat) (v : Z) : (w <= List.length (fmt_zero_pad w v))%nat.
Proof.
  unfold fmt_zero_pad. rewrite length_map.
  destruct (v <? 0); cbn [List.length]; rewrite length_app, repeat_length; lia.
Qed.

Lemma firstn_length_le {A} (n : nat) (l : list A) :
  (n <= List.length l)%nat -> List.length (firstn n l) = n.
Proof. intros H. rewrite length_firstn. lia. Qed.

Lemma DecDateTime_of_option_length (v : option DateTime) (bs : list Z) :
  DecDateTime_of_option v = Ok bs -> List.length bs = 17%nat.
Proof.
  unfold DecDateTime_of_option, DecDateTime_try_from.
  destruct v as [t|]; intros H; apply Ok_inj in H; subst bs; [|reflexivity].
  rewrite !length_app, !firstn_length_le by apply fmt_zero_pad_length.
  rewrite (firstn_length_le 2 (fmt_zero_pad 3 _))
    by (pose proof (fmt_zero_pad_length 3 (dt_nanos t / 1000000)); lia).
  reflexivity.
Qed.

Lemma RootDirectoryEntry_into_raw_length (r : RootDirectoryEntry) (bs : list Z) :
  RootDirectoryEntry_into_raw r = Ok bs -> List.length bs = 34%nat.
Proof. unfold RootDirectoryEntry_into_raw. simpl. intros H. injection H as <-. reflexivity. Qed.

(** The PVD [into_raw] builds: 80 bytes, then the [volume_space_size]
    pair, then the rest, 2048 bytes in all. *)
Lemma IsoHeader_into_raw_shape (h : IsoHeader) (r : RootDirectoryEntry) (hr : IsoHeaderRaw) :
  IsoHeader_into_raw h r = Ok hr ->
  exists pre post,
    IsoHeaderRaw_bytes hr = pre ++ lsbmsb32 (h_volume_space_size h) ++ post /\
    List.length pre = 80%nat /\ List.length post = 1960%nat.
Proof.
  unfold IsoHeader_into_raw. intros H.
  apply bind_Ok in H. destruct H as (root & Hroot & H).
  apply bind_Ok in H. destruct H as (cd & Hcd & H).
  apply bind_Ok in H. destruct H as (md & Hmd & H).
  apply bind_Ok in H. destruct H as (xd & Hxd & H).
  apply bind_Ok in H. destruct H as (ed & Hed & H).
  apply Ok_inj in H. subst hr.
  apply RootDirectoryEntry_into_raw_length in Hroot.
  apply DecDateTime_of_option_length in Hcd, Hmd, Hxd, Hed.
  unfold IsoHeaderRaw_bytes.
  cbv beta iota delta [hr_type_code hr_standard_id hr_version hr_unused00 hr_system_id hr_volumen_id hr_unused01 hr_volume_space_size hr_unused02 hr_volume_set_size hr_volume_sequence_number hr_logical_block_size hr_path_table_size hr_loc_of_type_l_path_table hr_loc_of_opti_l_path_table hr_loc_of_type_m_path_table hr_loc_of_opti_m_path_table hr_root_directory_entry hr_volume_set_id hr_publisher_id hr_data_preparer_id hr_application_id hr_copyright_file_id hr_abstract_file_id hr_bibliographic_file_id hr_volume_creation_date hr_volume_modification_date hr_volume_expiration_date hr_volume_effective_date hr_file_structure_version hr_unused03 hr_application_used hr_reserved].
  do 6 rewrite app_assoc.
  eexists. eexists. split; [reflexivity|].
  unfold a_characters, d_characters, zeros.
  rewrite !length_app, !fixed_field_length, !repeat_length.
  rewrite Hroot, Hcd, Hmd, Hxd, Hed. split; reflexivity.
Qed.

Lemma write_records_len (sector : list IsoDirectoryEntry) :
  forall size bs size', 0 <= size ->
  write_records size sector = Ok (bs, size') ->
  0 <= size' /\ Z.of_nat (List.length bs) + size' = size.
Proof.
  induction sector as [|e rest IH]; intros size bs size' Hs H; cbn [write_records] in H.
  - injection H as <- <-. simpl. lia.
  - destruct (size <? de_write e) eqn:E; [discriminate|]. apply Z.ltb_ge in E.
    apply bind_Ok in H. destruct H as ([bs0 s0] & H0 & H).
    apply Ok_inj, pair_equal_spec in H. destruct H as [<- <-].
    destruct (IH (size - de_write e) bs0 s0 ltac:(lia) H0) as [Hs0 Hl].
    split; [exact Hs0|]. rewrite length_app, Nat2Z.inj_add. unfold de_write in E, Hl |- *. lia.
Qed.

(** Whatever its records, a directory sector written is 2048 bytes. *)
Lemma write_dir_sector_len (sector : list IsoDirectoryEntry) (bs : list Z) :
  write_dir_sector sector = Ok bs -> List.length bs = 2048%nat.
Proof.
  unfold write_dir_sector. intros H.
  apply bind_Ok in H. destruct H as ([bs0 s0] & H0 & H).
  apply Ok_inj in H. subst bs.
  apply write_records_len in H0; [|unfold LOGICAL_BLOCK_SIZE; lia].
  destruct H0 as [Hs0 Hl]. unfold zeros, LOGICAL_BLOCK_SIZE in *.
  rewrite length_app, repeat_length. lia.
Qed.

Lemma write_dir_sectors_len (ds : list Sector) (bs : list Z) :
  write_dir_sectors ds = Ok bs -> List.length bs = (2048 * List.length ds)%nat.
Proof.
  revert bs. induction ds as [|[sector p] ds IH]; intros bs H; cbn [write_dir_sectors] in H.
  - injection H as <-. reflexivity.
  - apply bind_Ok in H. destruct H as (b0 & H0 & H).
    apply bind_Ok in H. destruct H as (b1 & H1 & H).
    apply Ok_inj in H. subst bs.
    rewrite length_app, (write_dir_sector_len _ _ H0), (IH _ H1). cbn [List.length]. lia.
Qed.

Lemma write_file_sectors_len (fs : list (list Z)) :
  List.length (flat_map write_file_sector fs) = (2048 * List.length fs)%nat.
Proof.
  induction fs as [|c fs IH]; [reflexivity|].
  cbn [flat_map]. rewrite length_app, IH. unfold write_file_sector, zeros.
  rewrite length_app, length_firstn, repeat_length. simpl List.length. lia.
Qed.

Lemma path_table_buffer_len (l_len : nat) (raw : list Z) (msg : string) (bs : list Z) :
  path_table_buffer l_len raw msg = Ok bs -> List.length bs = 4096%nat.
Proof.
  unfold path_table_buffer. intros H.
  destruct (Nat.leb l_len 4096); [|discriminate].
  destruct (Nat.leb (List.length raw) 4096) eqn:E; [|discriminate].
  apply Ok_inj in H. subst bs. apply Nat.leb_le in E.
  unfold zeros. rewrite length_app, repeat_length. lia.
Qed.

Lemma terminator_len : List.length (IsoHeaderRaw_bytes IsoHeaderRaw_terminator) = 2048%nat.
Proof. vm_compute. reflexivity. Qed.

(** C4 (corrected).  For every writer and every successful [close()], with
    [D] directory sectors and [S] file sectors as the planner laid them
    out, the image is [(23 + D + S) * 2048] bytes long (16 system sectors,
    the PVD, the terminator, one reserved sector and two path tables of
    two sectors each come before the directories), and the PVD's
    [volume_space_size] field reads [22 + D + S] (as a [u32]). *)
Theorem image_size_and_volume_space_size (w : IsoFileWriter) (now : DateTime) (img : list Z) :
  close w now = Ok img ->
  exists ds fs pg,
    close_layout w now = Ok (ds, fs, pg) /\
    Z.of_nat (List.length img)
      = (23 + Z.of_nat (List.length ds) + Z.of_nat (List.length fs)) * LOGICAL_BLOCK_SIZE /\
    hraw_volume_space_size (firstn 2048 (skipn 32768 img))
      = as_u32 (22 + Z.of_nat (List.length ds) + Z.of_nat (List.length fs)).
Proof.
  unfold close. intros H.
  apply bind_Ok in H. destruct H as (st & Hplan & H).
  apply bind_Ok in H. destruct H as ([ds pg] & Hloc & H).
  cbv zeta in H.
  apply bind_Ok in H. destruct H as (lt & Hlt & H).
  apply bind_Ok in H. destruct H as (hraw & Hraw & H).
  apply bind_Ok in H. destruct H as (lb & Hlb & H).
  apply bind_Ok in H. destruct H as (mb & Hmb & H).
  apply bind_Ok in H. destruct H as (dirs & Hdirs & H).
  apply Ok_inj in H. subst img.
  exists ds, (bs_files_sectors st), pg.
  split; [unfold close_layout; rewrite Hplan; cbn [bind]; rewrite Hloc; reflexivity|].
  destruct (IsoHeader_into_raw_shape _ _ _ Hraw) as (pre & post & Hb & Hpre & Hpost).
  cbn [h_volume_space_size] in Hb.
  assert (Hpvd : List.length (IsoHeaderRaw_bytes hraw) = 2048%nat)
    by (rewrite Hb, !length_app, Hpre, Hpost; reflexivity).
  split.
  - unfold zeros. rewrite !length_app, repeat_length, Hpvd, terminator_len, repeat_length,
      (path_table_buffer_len _ _ _ _ Hlb), (path_table_buffer_len _ _ _ _ Hmb),
      (write_dir_sectors_len _ _ Hdirs), write_file_sectors_len.
    set (k := 32768%nat). assert (Hk : Z.of_nat k = 32768) by reflexivity. clearbody k.
    unfold LOGICAL_BLOCK_SIZE. lia.
  - rewrite skipn_app_len by apply repeat_length.
    rewrite firstn_app_len by exact Hpvd.
    unfold hraw_volume_space_size, field.
    rewrite Hb, skipn_app_len by exact Hpre.
    unfold lsbmsb32, native32. rewrite <- app_assoc, firstn_app_len by apply le_bytes_length.
    rewrite le_value_le_bytes by (unfold as_u32; apply Z.mod_pos_bound; reflexivity).
    unfold as_u32, u32_max. change (256 ^ Z.of_nat 4) with 4294967296.
    apply Z.mod_mod. lia.
Qed.

Lemma image_size_and_volume_space_size_witness :
  write_image ts_2024 inputs_hello
    = Ok (match write_image ts_2024 inputs_hello with Ok i => i | _ => [] end) /\
  exists ds fs pg,
    close_layout (writer_of ts_2024 inputs_hello) ts_2024 = Ok (ds, fs, pg) /\
    Z.of_nat (List.length (match write_image ts_2024 inputs_hello with Ok i => i | _ => [] end))
      = (23 + Z.of_nat (List.length ds) + Z.of_nat (List.length fs)) * LOGICAL_BLOCK_SIZE /\
    hraw_volume_space_size
      (firstn 2048 (skipn 32768 (match write_image ts_2024 inputs_hello with
                                 | Ok i => i | _ => [] end)))
      = as_u32 (22 + Z.of_nat (List.length ds) + Z.of_nat (List.length fs)).
Proof.
  assert (H : write_image ts_2024 inputs_hello
                = Ok (match write_image ts_2024 inputs_hello with Ok i => i | _ => [] end)).
  { destruct (write_image ts_2024 inputs_hello) eqn:E; [reflexivity| | |];
      apply (f_equal (fun o => match o with Ok _ => true | _ => false end)) in E;
      vm_compute in E; discriminate E. }
  split; [exact H|].
  unfold write_image in H.
  exact (image_size_and_volume_space_size (writer_of ts_2024 inputs_hello) ts_2024 _ H).
Defined.

(** ** Reading back *)

Lemma map_insert_not_dir (m : Entries) (k : PathBuf) (v : IsoDirectoryEntry) :
  is_directory (de_entry v) = false ->
  Forall (fun kv => is_directory (de_entry (snd kv)) = false) m ->
  Forall (fun kv => is_directory (de_entry (snd kv)) = false) (map_insert m k v).
Proof.
  intros Hv Hm. induction Hm as [|[k' v'] rest Hkv Hrest IH]; simpl.
  - constructor; [exact Hv | constructor].
  - destruct (PathBuf_eqb k k'); constructor; auto.
Qed.

Lemma read_dir_loop_not_dir rec img base lbs fuel offset entries res :
  (forall b o e e', Forall (fun kv => is_directory (de_entry (snd kv)) = false) e ->
     rec b o e = Ok e' ->
     Forall (fun kv => is_directory (de_entry (snd kv)) = false) e') ->
  Forall (fun kv => is_directory (de_entry (snd kv)) = false) entries ->
  read_dir_loop rec img base lbs fuel offset entries = Ok res ->
  Forall (fun kv => is_directory (de_entry (snd kv)) = false) res.
Proof.
  intros Hrec. revert offset entries.
  induction fuel as [|f IH]; intros offset entries He H; cbn [read_dir_loop] in H;
    [discriminate H|].
  apply bind_Ok in H as [hb [_ H]]. cbv beta zeta in H.
  destruct (dh_length (parse_dir_header hb) =? 0).
  { apply Ok_inj in H. subst res. exact He. }
  apply bind_Ok in H as [fid [_ H]]. cbv beta in H.
  apply bind_Ok in H as [off' [_ H]]. cbv beta zeta in H.
  destruct (IsoEntry_from fid) as [| |t|t].
  - eapply IH; [|exact H]. apply map_insert_not_dir; [reflexivity|exact He].
  - eapply IH; [|exact H]. apply map_insert_not_dir; [reflexivity|exact He].
  - apply bind_Ok in H as [loc [_ H]]. cbv beta in H.
    apply bind_Ok in H as [e' [Hr H]]. cbv beta in H.
    eapply IH; [|exact H]. eapply Hrec; [exact He|exact Hr].
  - eapply IH; [|exact H]. apply map_insert_not_dir; [reflexivity|exact He].
Qed.

Lemma read_dir_not_dir dfuel img base lbs offset entries res :
  Forall (fun kv => is_directory (de_entry (snd kv)) = false) entries ->
  read_dir dfuel img base lbs offset entries = Ok res ->
  Forall (fun kv => is_directory (de_entry (snd kv)) = false) res.
Proof.
  revert base offset entries res.
  induction dfuel as [|df IH]; intros base offset entries res He H; [discriminate H|].
  cbn [read_dir] in H. eapply read_dir_loop_not_dir; [|exact He|exact H].
  intros b o e e' He' Hr. eapply IH; [exact He'|exact Hr].
Qed.

Lemma map_get_In (m : Entries) (k : PathBuf) (v : IsoDirectoryEntry) :
  map_get m k = Some v -> exists k', In (k', v) m.
Proof.
  induction m as [|[k' v'] rest IH]; simpl; [discriminate|].
  destruct (PathBuf_eqb k k'); intros H.
  - injection H as <-. eauto.
  - destruct (IH H) as [k'' Hin]. eauto.
Qed.

Lemma IsoFileReader_read_parts img r :
  IsoFileReader_read img = Ok r ->
  r_image r = img /\
  Forall (fun kv => is_directory (de_entry (snd kv)) = false) (r_entries r).
Proof.
  unfold IsoFileReader_read. intros H.
  apply bind_Ok in H as [header [_ H]]. cbv beta in H.
  apply bind_Ok in H as [tl [_ H]]. cbv beta in H.
  apply bind_Ok in H as [pt [_ H]]. cbv beta in H.
  apply bind_Ok in H as [root [_ H]]. cbv beta in H.
  apply bind_Ok in H as [es [Hes H]]. cbv beta in H.
  apply Ok_inj in H. subst r. cbn [r_image r_entries]. split; [reflexivity|].
  eapply read_dir_not_dir; [constructor|exact Hes].
Qed.

(** X13.  On every image that [IsoFileReader::read] opens, no
    [Directory] value is stored in the entries map, so [read_file] never
    returns [EntryDirectory] and never reaches [unreachable!()].  It
    returns [FileNotFound] exactly when the path is absent from the map,
    [EntryCurrentDirectory] / [EntryParentDirectory] for the dot entries
    (which is what a directory's path names), and for a file: the
    [data_length] bytes at [LBA * logical_block_size] when they lie in
    the image or are none, an [UnexpectedEof] error when a non-empty read
    runs past the image, and the overflow panic of the [u32]
    multiplication in [IsoDirectoryHeader::location] when the byte offset
    does not fit in a [u32]. *)
Theorem read_file_outcomes (img : list Z) (r : IsoFileReader) (path : string) :
  IsoFileReader_read img = Ok r ->
  Forall (fun kv => is_directory (de_entry (snd kv)) = false) (r_entries r) /\
  read_file r path <> Err EntryDirectory /\
  read_file r path <> Panic Unreachable /\
  (read_file r path = Err FileNotFound <-> map_get (r_entries r) (components path) = None) /\
  (forall v, map_get (r_entries r) (components path) = Some v ->
     (de_entry v = CurrentDirectory /\ read_file r path = Err EntryCurrentDirectory) \/
     (de_entry v = ParentDirectory /\ read_file r path = Err EntryParentDirectory) \/
     (exists t, de_entry v = File t /\
        let loc := dh_location_of_extent (de_record v)
                   * hraw_logical_block_size (r_header r) in
        let n := Z.to_nat (dh_data_length (de_record v)) in
        ((loc < u32_max /\ (n = 0%nat \/ Z.of_nat n + loc <= Z.of_nat (List.length img)) /\
          read_file r path = Ok (firstn n (skipn (Z.to_nat loc) img))) \/
         (loc < u32_max /\ (0 < n)%nat /\ Z.of_nat (List.length img) < Z.of_nat n + loc /\
          read_file r path = Err (StdIo UnexpectedEof)) \/
         (u32_max <= loc /\ read_file r path = Panic ArithOverflow)))).
Proof.
  intros H. destruct (IsoFileReader_read_parts img r H) as [Himg Hnd].
  assert (Hcase : forall v, map_get (r_entries r) (components path) = Some v ->
     (de_entry v = CurrentDirectory /\ read_file r path = Err EntryCurrentDirectory) \/
     (de_entry v = ParentDirectory /\ read_file r path = Err EntryParentDirectory) \/
     (exists t, de_entry v = File t /\
        let loc := dh_location_of_extent (de_record v)
                   * hraw_logical_block_size (r_header r) in
        let n := Z.to_nat (dh_data_length (de_record v)) in
        ((loc < u32_max /\ (n = 0%nat \/ Z.of_nat n + loc <= Z.of_nat (List.length img)) /\
          read_file r path = Ok (firstn n (skipn (Z.to_nat loc) img))) \/
         (loc < u32_max /\ (0 < n)%nat /\ Z.of_nat (List.length img) < Z.of_nat n + loc /\
          read_file r path = Err (StdIo UnexpectedEof)) \/
         (u32_max <= loc /\ read_file r path = Panic ArithOverflow)))).
  { intros v Hv.
    destruct (map_get_In _ _ _ Hv) as [k' Hin].
    pose proof (proj1 (Forall_forall _ _) Hnd _ Hin) as Hnv. cbn [snd] in Hnv.
    unfold read_file. rewrite Hv.
    destruct (de_entry v) as [| |t|t] eqn:Ee; cbn [is_directory] in Hnv.
    - left. split; reflexivity.
    - right; left. split; reflexivity.
    - discriminate Hnv.
    - right; right. exists t. split; [reflexivity|]. cbv zeta.
      unfold u32_mul.
      set (loc := dh_location_of_extent (de_record v) * hraw_logical_block_size (r_header r)).
      set (n := Z.to_nat (dh_data_length (de_record v))).
      destruct (Z.ltb_spec loc u32_max) as [Hl|Hl].
      + cbn [bind]. unfold read_exact. rewrite Himg.
        destruct (Nat.eqb_spec n 0) as [H0|H0]; cbn [orb].
        * left. split; [exact Hl|]. split; [left; exact H0|reflexivity].
        * destruct (Z.leb_spec (Z.of_nat n + loc) (Z.of_nat (List.length img))) as [Hr|Hr].
          -- left. split; [exact Hl|]. split; [right; exact Hr|reflexivity].
          -- right; left. split; [exact Hl|]. split; [lia|]. split; [exact Hr|reflexivity].
      + right; right. split; [exact Hl|reflexivity]. }
  split; [exact Hnd|].
  assert (Hrest : read_file r path <> Err EntryDirectory /\
    read_file r path <> Panic Unreachable /\
    (read_file r path = Err FileNotFound <-> map_get (r_entries r) (components path) = None)).
  { destruct (map_get (r_entries r) (components path)) as [v|] eqn:Hv.
    - destruct (Hcase v eq_refl) as [[_ E]|[[_ E]|[t [_ E]]]];
        [| |cbv zeta in E; destruct E as [[_ [_ E]]|[[_ [_ [_ E]]]|[_ E]]]];
        rewrite E; (split; [discriminate|]); (split; [discriminate|]);
        split; intros C; discriminate C.
    - unfold read_file. rewrite Hv.
      split; [discriminate|]. split; [discriminate|]. split; reflexivity. }
  destruct Hrest as [H1 [H2 H3]]. auto.
Qed.

Lemma read_file_outcomes_witness :
  IsoFileReader_read (match write_image ts_2024 inputs_one_two with Ok i => i | _ => [] end)
    = Ok (match IsoFileReader_read
                  (match write_image ts_2024 inputs_one_two with Ok i => i | _ => [] end) with
          | Ok r => r
          | _ => {| r_header := []; r_path_table := LTable []; r_entries := [];
                    r_image := [] |}
          end) /\
  read_file (match IsoFileReader_read
                  (match write_image ts_2024 inputs_one_two with Ok i => i | _ => [] end) with
             | Ok r => r
             | _ => {| r_header := []; r_path_table := LTable []; r_entries := [];
                       r_image := [] |}
             end) "/ONE/A"%string <> Err EntryDirectory.
Proof.
  assert (H : IsoFileReader_read
                (match write_image ts_2024 inputs_one_two with Ok i => i | _ => [] end)
    = Ok (match IsoFileReader_read
                  (match write_image ts_2024 inputs_one_two with Ok i => i | _ => [] end) with
          | Ok r => r
          | _ => {| r_header := []; r_path_table := LTable []; r_entries := [];
                    r_image := [] |}
          end)).
  { apply is_ok_Ok. vm_compute. reflexivity. }
  split; [exact H|].
  exact (proj1 (proj2 (read_file_outcomes
    (match write_image ts_2024 inputs_one_two with Ok i => i | _ => [] end)
    (match IsoFileReader_read
                  (match write_image ts_2024 inputs_one_two with Ok i => i | _ => [] end) with
          | Ok r => r
          | _ => {| r_header := []; r_path_table := LTable []; r_entries := [];
                    r_image := [] |}
          end)
    "/ONE/A"%string H))).
Defined.

(** ** Further properties of the code *)


(** X1.  [LsbMsb::new_u16] and [LsbMsb::new_u32] write a value that fits
    its width as its little-endian bytes followed by the same bytes in
    reverse (big-endian) order; [lsb] (the first half read little-endian)
    and the second half read big-endian both give the value back. *)
Theorem lsbmsb_layout (v16 v32 : Z) :
  0 <= v16 < u16_max -> 0 <= v32 < u32_max ->
  (lsbmsb16 v16 = le_bytes 2 v16 ++ rev (le_bytes 2 v16) /\
   le_value (firstn 2 (lsbmsb16 v16)) = v16 /\
   le_value (rev (skipn 2 (lsbmsb16 v16))) = v16) /\
  (lsbmsb32 v32 = le_bytes 4 v32 ++ rev (le_bytes 4 v32) /\
   le_value (firstn 4 (lsbmsb32 v32)) = v32 /\
   le_value (rev (skipn 4 (lsbmsb32 v32))) = v32).
Proof.
  intros H16 H32. unfold lsbmsb16, lsbmsb32, native16, native32.
  rewrite !le_bytes_to_be.
  rewrite !firstn_app_len, !skipn_app_len by apply le_bytes_length.
  rewrite !rev_involutive, !le_value_le_bytes by lia.
  unfold u16_max, u32_max in *.
  rewrite !Z.mod_small by (cbn; lia). repeat split; reflexivity.
Qed.

Lemma lsbmsb_layout_witness :
  (0 <= 2048 < u16_max /\ 0 <= 23 < u32_max) /\
  (lsbmsb16 2048 = le_bytes 2 2048 ++ rev (le_bytes 2 2048) /\
   le_value (firstn 2 (lsbmsb16 2048)) = 2048 /\
   le_value (rev (skipn 2 (lsbmsb16 2048))) = 2048) /\
  (lsbmsb32 23 = le_bytes 4 23 ++ rev (le_bytes 4 23) /\
   le_value (firstn 4 (lsbmsb32 23)) = 23 /\
   le_value (rev (skipn 4 (lsbmsb32 23))) = 23).
Proof.
  assert (H16 : 0 <= 2048 < u16_max) by (unfold u16_max; lia).
  assert (H32 : 0 <= 23 < u32_max) by (unfold u32_max; lia).
  split; [exact (conj H16 H32)|].
  exact (lsbmsb_layout 2048 23 H16 H32).
Defined.

(** X2.  [IsoDirectoryHeader::read] (the transmute of the first 33 bytes)
    applied to the bytes [IsoDirectoryEntry::write] emits for a header,
    whatever follows them, gives the same header back, provided every
    field fits its on-disk width. *)
Theorem parse_dir_header_bytes (h : IsoDirectoryHeader) (rest : list Z) :
  dh_in_range h -> parse_dir_header (IsoDirectoryHeader_bytes h ++ rest) = h.
Proof.
  destruct h as [l ea loc dl [y mo d hh mi s g] fl us ig vsn fil].
  unfold dh_in_range, byte_ok, u32_max, u16_max; cbn [dh_length dh_extended_attribute_length
    dh_location_of_extent dh_data_length dh_datetime dh_flags dh_unit_size
    dh_interleave_gap_size dh_volume_seq_number dh_file_identifier_length IsoDateTime_bytes
    idt_year idt_month idt_day idt_hour idt_minute idt_second idt_gmt_offset].
  intros (Hl & Hea & Hloc & Hdl & Hdt & Hfl & Hus & Hig & Hvsn & Hfil).
  repeat match goal with H : Forall _ (_ :: _) |- _ => inversion_clear H end.
  assert (E4 : forall x, 0 <= x < 4294967296 -> le_value (le_bytes 4 x) = x).
  { intros x Hx. rewrite le_value_le_bytes by lia. apply Z.mod_small. cbn. lia. }
  assert (E2 : forall x, 0 <= x < 65536 -> le_value (le_bytes 2 x) = x).
  { intros x Hx. rewrite le_value_le_bytes by lia. apply Z.mod_small. cbn. lia. }
  pose proof (E4 loc Hloc) as Eloc. pose proof (E4 dl Hdl) as Edl.
  pose proof (E2 vsn Hvsn) as Evsn.
  unfold parse_dir_header, field, IsoDirectoryHeader_bytes, IsoDateTime_bytes,
    lsbmsb32, lsbmsb16, native32, native16.
  cbn [dh_length dh_extended_attribute_length
    dh_location_of_extent dh_data_length dh_datetime dh_flags dh_unit_size
    dh_interleave_gap_size dh_volume_seq_number dh_file_identifier_length
    idt_year idt_month idt_day idt_hour idt_minute idt_second idt_gmt_offset].
  cbn [app skipn firstn le_bytes le_value] in *.
  rewrite Eloc, Edl, Evsn.
  f_equal; try lia. f_equal; lia.
Qed.

Lemma parse_dir_header_bytes_witness :
  let h := {| dh_length := 34; dh_extended_attribute_length := 0;
              dh_location_of_extent := 23; dh_data_length := 2048;
              dh_datetime := {| idt_year := 124; idt_month := 1; idt_day := 2; idt_hour := 3;
                                idt_minute := 4; idt_second := 5; idt_gmt_offset := 0 |};
              dh_flags := 2; dh_unit_size := 0; dh_interleave_gap_size := 0;
              dh_volume_seq_number := 1; dh_file_identifier_length := 1 |} in
  dh_in_range h /\ parse_dir_header (IsoDirectoryHeader_bytes h ++ [0; 0]) = h.
Proof.
  intros h.
  assert (Hr : dh_in_range h).
  { unfold dh_in_range, byte_ok, u32_max, u16_max, h. simpl.
    repeat match goal with
           | |- _ /\ _ => split
           | |- Forall _ _ => constructor
           end; cbn; lia. }
  split; [exact Hr|].
  exact (parse_dir_header_bytes h [0; 0] Hr).
Defined.

Lemma string_of_bytes_bytes (s : string) : string_of_bytes (string_bytes s) = s.
Proof.
  unfold string_of_bytes, string_bytes. rewrite map_map.
  rewrite map_ext with (g := fun c => c).
  - rewrite map_id. apply string_of_list_ascii_of_string.
  - intros c. unfold ascii_of_byte, byte_of_ascii. rewrite Nat2Z.id.
    apply ascii_nat_embedding.
Qed.

Lemma prefix_refl (s : string) : String.prefix s s = true.
Proof.
  induction s as [|c s IH]; simpl; [reflexivity|].
  destruct (ascii_dec c c); [exact IH|contradiction].
Qed.

Lemma contains_app_suffix (t pat : string) : contains pat (t ++ pat) = true.
Proof.
  induction t as [|c t IH]; cbn [append].
  - destruct pat as [|a p]; [reflexivity|]. cbn [contains]. rewrite prefix_refl. reflexivity.
  - cbn [contains]. rewrite IH. apply orb_true_r.
Qed.

Lemma substring_app_l (t s : string) : substring 0 (String.length t) (t ++ s) = t.
Proof.
  induction t as [|c t IH]; simpl; [destruct s; reflexivity|]. now rewrite IH.
Qed.

Lemma substring_app_r (t s : string) (m : nat) :
  substring (String.length t) m (t ++ s) = substring 0 m s.
Proof. induction t as [|c t IH]; simpl; [reflexivity|exact IH]. Qed.

Lemma substring_all (s : string) : substring 0 (String.length s) s = s.
Proof. induction s as [|c s IH]; simpl; [reflexivity|]. now rewrite IH. Qed.

Lemma strip_suffix_app (t suf : string) : strip_suffix (t ++ suf) suf = Some t.
Proof.
  unfold strip_suffix.
  assert (L : String.length (t ++ suf) = (String.length t + String.length suf)%nat).
  { induction t; simpl; congruence. }
  rewrite L. replace (String.length t + String.length suf - String.length suf)%nat
    with (String.length t) by lia.
  rewrite substring_app_r, substring_all, String.eqb_refl, substring_app_l.
  rewrite (proj2 (Nat.leb_le _ _)) by lia. reflexivity.
Qed.

(** X3.  [IsoEntry::from] applied to the bytes of [IsoEntry::name] gives the
    entry back, except exactly for a directory whose name is "\0" or "\1"
    or contains ";1" (it then reads back as a dot entry or a file). *)
Theorem IsoEntry_from_name (e : IsoEntry) :
  IsoEntry_from (string_bytes (IsoEntry_name e)) = e <->
  (forall t, e = Directory t ->
     t <> String (ascii_of_nat 0) EmptyString /\ t <> String (ascii_of_nat 1) EmptyString /\
     contains ";1" t = false).
Proof.
  unfold IsoEntry_from. rewrite string_of_bytes_bytes.
  destruct e as [| |t|t]; cbn [IsoEntry_name].
  - split; [intros _ t H; discriminate H|reflexivity].
  - split; [intros _ t H; discriminate H|reflexivity].
  - split.
    + intros H t' Ht'. injection Ht' as <-.
      destruct (String.eqb_spec t (String (ascii_of_nat 0) EmptyString)); [discriminate H|].
      destruct (String.eqb_spec t (String (ascii_of_nat 1) EmptyString)); [discriminate H|].
      destruct (contains ";1" t); [discriminate H|]. auto.
    + intros H. destruct (H t eq_refl) as (H0 & H1 & H2).
      apply String.eqb_neq in H0, H1. rewrite H0, H1, H2. reflexivity.
  - split; [intros _ t' H; discriminate H|].
    intros _.
    assert (N : forall c, String.eqb (t ++ ";1") (String c EmptyString) = false).
    { intros c. apply String.eqb_neq. intros E.
      apply (f_equal String.length) in E.
      assert (L : String.length (t ++ ";1") = (String.length t + 2)%nat).
      { clear E. induction t; simpl; congruence. }
      rewrite L in E. simpl in E. lia. }
    rewrite !N, contains_app_suffix, strip_suffix_app. reflexivity.
Qed.

Lemma IsoEntry_from_name_witness :
  (forall t, Directory "DOCS" = Directory t ->
     t <> String (ascii_of_nat 0) EmptyString /\ t <> String (ascii_of_nat 1) EmptyString /\
     contains ";1" t = false) /\
  IsoEntry_from (string_bytes (IsoEntry_name (Directory "DOCS"))) = Directory "DOCS".
Proof.
  assert (H : forall t, Directory "DOCS" = Directory t ->
     t <> String (ascii_of_nat 0) EmptyString /\ t <> String (ascii_of_nat 1) EmptyString /\
     contains ";1" t = false).
  { intros t E. injection E as <-.
    split; [intros E; discriminate E|]. split; [intros E; discriminate E|]. reflexivity. }
  split; [exact H|].
  exact (proj2 (IsoEntry_from_name (Directory "DOCS")) H).
Defined.

(** X4.  [IsoDirectoryEntry::new] with an identifier of [n] bytes panics on
    the [u8] overflow when [n mod 256] is 222 or more.  When [n < 222] it
    returns a record for the entry whose [len()] is [33 + n] rounded up to
    even, with [is_odd] set exactly when [n] is even, identifier length
    [n], extent and data length as [u32], flags 0 for a file and 2
    otherwise; and [write] then emits exactly [len()] bytes. *)
Theorem IsoDirectoryEntry_new_record (off len : Z) (ts : DateTime) (e : IsoEntry) :
  let n := Z.of_nat (String.length (IsoEntry_name e)) in
  (222 <= n mod 256 -> IsoDirectoryEntry_new off len ts e = Panic ArithOverflow) /\
  (n < 222 ->
   exists d, IsoDirectoryEntry_new off len ts e = Ok d /\
     de_entry d = e /\
     de_len d = 34 + n - n mod 2 /\
     de_is_odd d = Z.even n /\
     dh_file_identifier_length (de_record d) = n /\
     dh_location_of_extent (de_record d) = as_u32 off /\
     dh_data_length (de_record d) = as_u32 len /\
     dh_flags (de_record d) = (if is_file e then 0 else 2) /\
     Z.of_nat (List.length (de_write_bytes d)) = de_len d).
Proof.
  intros n. unfold IsoDirectoryEntry_new, u8_add. fold n.
  assert (Hn : 0 <= n) by lia.
  split.
  - intros H. unfold as_u8, u8_max.
    destruct (33 + n mod 256 <? 256) eqn:E1; cbn [bind].
    + destruct (33 + n mod 256 + 1 <? 256) eqn:E2; [|reflexivity].
      apply Z.ltb_lt in E2. lia.
    + reflexivity.
  - intros H. unfold as_u8. rewrite (Z.mod_small n 256) by lia.
    unfold u8_max.
    rewrite (proj2 (Z.ltb_lt (33 + n) 256)) by lia. cbn [bind].
    rewrite (proj2 (Z.ltb_lt (33 + n + 1) 256)) by lia. cbn [bind].
    unfold IsoDateTime_try_from, expect. cbn [bind].
    eexists. split; [reflexivity|].
    unfold de_len, de_write_bytes. cbv beta iota delta [de_record de_entry de_is_odd dh_length
      dh_file_identifier_length dh_location_of_extent dh_data_length dh_flags].
    rewrite land_254 by lia.
    replace (33 + n + 1 - (33 + n + 1) mod 2) with (34 + n - n mod 2)
      by (Z.div_mod_to_equations; lia).
    rewrite !length_app, header_bytes_length, string_bytes_length. fold n.
    assert (Hev : Z.even n = negb (33 + n =? 34 + n - n mod 2)).
    { rewrite Zeven_mod. destruct (Z.eqb_spec (n mod 2) 0) as [E|E];
        destruct (Z.eqb_spec (33 + n) (34 + n - n mod 2)); simpl; try reflexivity;
        Z.div_mod_to_equations; lia. }
    repeat split; try reflexivity.
    + exact (eq_sym Hev).
    + rewrite <- Hev. pose proof (Zeven_mod n) as Em.
      destruct (Z.even n); cbn [List.length];
        [apply eq_sym, Z.eqb_eq in Em | apply eq_sym, Z.eqb_neq in Em];
        subst n; Z.div_mod_to_equations; lia.
Qed.

Lemma IsoDirectoryEntry_new_record_witness :
  Z.of_nat (String.length (IsoEntry_name (File "A"))) < 222 /\
  exists d, IsoDirectoryEntry_new 25 13 ts_2024 (File "A") = Ok d /\
    de_len d = 34 + 3 - 3 mod 2 /\ de_is_odd d = Z.even 3.
Proof.
  assert (H : Z.of_nat (String.length (IsoEntry_name (File "A"))) < 222)
    by (vm_compute; reflexivity).
  split; [exact H|].
  destruct (proj2 (IsoDirectoryEntry_new_record 25 13 ts_2024 (File "A")) H)
    as (d & Hd & _ & Hlen & Hodd & _).
  exists d. exact (conj Hd (conj Hlen Hodd)).
Defined.

Lemma read_exact_mid (pre mid post : list Z) :
  read_exact (pre ++ mid ++ post) (Z.of_nat (List.length pre)) (List.length mid) = Ok mid.
Proof.
  unfold read_exact. rewrite !length_app.
  rewrite (proj2 (Z.leb_le _ _)) by lia. rewrite orb_true_r.
  rewrite Nat2Z.id, skipn_app_len, firstn_app_len; reflexivity.
Qed.

Lemma read_exact_at (pre mid post : list Z) (n : nat) :
  List.length mid = n ->
  read_exact (pre ++ mid ++ post) (Z.of_nat (List.length pre)) n = Ok mid.
Proof. intros <-. apply read_exact_mid. Qed.

Lemma parse_pt_header_bytes (l ea loc par : Z) :
  0 <= l < 256 -> 0 <= ea < 256 -> 0 <= loc < u32_max -> 0 <= par < u16_max ->
  parse_path_table_header ([l; ea] ++ le_bytes 4 loc ++ le_bytes 2 par) =
    {| pt_length := l; pt_extended_attribute_length := ea;
       pt_location_of_extent := loc; pt_directory_number_of_parent_directory := par |}.
Proof.
  intros Hl Hea Hloc Hpar. unfold u32_max, u16_max in *.
  assert (E4 : le_value (le_bytes 4 loc) = loc).
  { rewrite le_value_le_bytes by lia. apply Z.mod_small. cbn. lia. }
  assert (E2 : le_value (le_bytes 2 par) = par).
  { rewrite le_value_le_bytes by lia. apply Z.mod_small. cbn. lia. }
  unfold parse_path_table_header, field.
  cbn [app skipn firstn le_bytes le_value] in *.
  rewrite E4, E2. f_equal; lia.
Qed.

Lemma entry_bytes_length (e : IsoPathTableEntry) :
  (8 <= List.length (IsoPathTableEntry_bytes e))%nat.
Proof.
  rewrite pte_bytes_split, !length_app, !le_bytes_length. cbn [List.length]. lia.
Qed.

Lemma flat_map_entries_length (es : list IsoPathTableEntry) :
  (List.length es <= List.length (flat_map IsoPathTableEntry_bytes es))%nat.
Proof.
  induction es as [|e es IH]; cbn [flat_map List.length]; [lia|].
  rewrite length_app. pose proof (entry_bytes_length e). lia.
Qed.

Lemma read_l_table_loop_as_vec (es : list IsoPathTableEntry) (rest : list Z) :
  Forall pte_ok es -> (8 <= List.length rest)%nat -> hd 1 rest = 0 ->
  forall pre acc fuel, (List.length es < fuel)%nat ->
  read_l_table_loop fuel (pre ++ flat_map IsoPathTableEntry_bytes es ++ rest)
    (Z.of_nat (List.length pre)) acc = Ok (acc ++ es).
Proof.
  intros Hok Hrest Hhd.
  induction Hok as [|e es He Hes IH]; intros pre acc fuel Hf;
    (destruct fuel as [|f]; [lia|]); cbn [read_l_table_loop flat_map app].
  - destruct rest as [|z r]; [cbn in Hrest; lia|]. cbn [hd] in Hhd. subst z.
    destruct r as [|a0 [|a1 [|a2 [|a3 [|a4 [|a5 [|a6 r]]]]]]]; cbn [List.length] in Hrest;
      try lia.
    set (r8 := [0; a0; a1; a2; a3; a4; a5; a6]).
    replace (0 :: a0 :: a1 :: a2 :: a3 :: a4 :: a5 :: a6 :: r) with (r8 ++ r) by reflexivity.
    rewrite (read_exact_at pre r8 r 8 eq_refl). cbn [bind].
    unfold parse_path_table_header, field. cbn. rewrite app_nil_r. reflexivity.
  - destruct He as (Hlen & Hl & Hea & Hloc & Hpar).
    set (h := pte_header e) in *.
    rewrite pte_bytes_split. fold h.
    set (H8 := [pt_length h; pt_extended_attribute_length h]
               ++ le_bytes 4 (pt_location_of_extent h)
               ++ le_bytes 2 (pt_directory_number_of_parent_directory h)).
    set (idb := string_bytes (pte_directory_id e)).
    set (pad := if Z.odd (pt_length h) then [0] else []).
    assert (L8 : List.length H8 = 8%nat) by (unfold H8; rewrite !length_app, !le_bytes_length; reflexivity).
    assert (Lid : List.length idb = Z.to_nat (pt_length h))
      by (unfold idb; rewrite string_bytes_length; lia).
    rewrite <- !app_assoc.
    replace (pre ++ [pt_length h; pt_extended_attribute_length h]
               ++ le_bytes 4 (pt_location_of_extent h)
               ++ le_bytes 2 (pt_directory_number_of_parent_directory h)
               ++ idb ++ pad ++ flat_map IsoPathTableEntry_bytes es ++ rest)
      with (pre ++ H8 ++ (idb ++ pad ++ flat_map IsoPathTableEntry_bytes es ++ rest))
      by (unfold H8; rewrite <- !app_assoc; reflexivity).
    rewrite (read_exact_at pre H8 _ 8 L8). cbn [bind].
    assert (Hp : parse_path_table_header H8 = h)
      by (unfold H8; rewrite parse_pt_header_bytes by lia; destruct h; reflexivity).
    rewrite Hp.
    rewrite (proj2 (Z.eqb_neq (pt_length h) 0)) by lia.
    rewrite app_assoc.
    replace (Z.of_nat (List.length pre) + 8) with (Z.of_nat (List.length (pre ++ H8)))
      by (rewrite length_app, L8; lia).
    rewrite (read_exact_at (pre ++ H8) idb _ _ Lid). cbn [bind].
    assert (Hs : string_of_bytes idb = pte_directory_id e)
      by (unfold idb; apply string_of_bytes_bytes).
    rewrite Hs.
    replace (Z.of_nat (List.length (pre ++ H8)) + pt_length h + (if Z.odd (pt_length h) then 1 else 0))
      with (Z.of_nat (List.length ((pre ++ H8) ++ idb ++ pad)))
      by (unfold pad; rewrite !length_app, L8, Lid; destruct (Z.odd (pt_length h));
          cbn [List.length]; lia).
    replace ((pre ++ H8) ++ idb ++ pad ++ flat_map IsoPathTableEntry_bytes es ++ rest)
      with (((pre ++ H8) ++ idb ++ pad) ++ flat_map IsoPathTableEntry_bytes es ++ rest)
      by (rewrite <- !app_assoc; reflexivity).
    replace ({| pte_header := h; pte_directory_id := pte_directory_id e |}) with e
      by (unfold h; destruct e; reflexivity).
    rewrite IH by (cbn [List.length] in Hf; lia).
    rewrite <- app_assoc. reflexivity.
Qed.

(** X5.  [IsoPathTable::read_l_table] at the offset where the [as_vec] bytes
    of an L-table start gives the same entries back, when every entry's
    length field is its (non-empty) identifier's length, its fields fit
    their widths, and at least 8 bytes follow, the first being zero. *)
Theorem read_l_table_as_vec (pre rest : list Z) (es : list IsoPathTableEntry) :
  Forall pte_ok es -> (8 <= List.length rest)%nat -> hd 1 rest = 0 ->
  read_l_table (pre ++ as_vec (LTable es) ++ rest) (Z.of_nat (List.length pre))
    = Ok (LTable es).
Proof.
  intros Hok Hrest Hhd. unfold read_l_table, as_vec, table_entries.
  rewrite (read_l_table_loop_as_vec es rest Hok Hrest Hhd pre []).
  - reflexivity.
  - rewrite !length_app. pose proof (flat_map_entries_length es). lia.
Qed.

Lemma read_l_table_as_vec_witness :
  let es := [IsoPathTableEntry_new 23 1 (String (ascii_of_nat 0) EmptyString);
             IsoPathTableEntry_new 24 1 "DOCS"] in
  (Forall pte_ok es /\ (8 <= List.length (zeros 8))%nat /\ hd 1 (zeros 8) = 0) /\
  read_l_table ([] ++ as_vec (LTable es) ++ zeros 8) (Z.of_nat (List.length (@nil Z)))
    = Ok (LTable es).
Proof.
  intros es.
  assert (Hok : Forall pte_ok es)
    by (repeat constructor; unfold pte_ok, u32_max, u16_max; cbn; lia).
  assert (H8 : (8 <= List.length (zeros 8))%nat) by (cbn; lia).
  assert (Hhd : hd 1 (zeros 8) = 0) by reflexivity.
  split; [exact (conj Hok (conj H8 Hhd))|].
  exact (read_l_table_as_vec [] (zeros 8) es Hok H8 Hhd).
Defined.

Lemma nlt_first_fold (l : list (string * Z)) :
  forall idx tbl fm,
  fold_left (fun '(index, table, fm) (folder : string * Z) =>
               (index + 1, table ++ [IsoPathTableEntry_new (snd folder) 1 (fst folder)],
                fm ++ [(folder, index + 1)]))
            l (idx, tbl, fm)
  = (idx + Z.of_nat (List.length l),
     tbl ++ map (fun f => IsoPathTableEntry_new (snd f) 1 (fst f)) l,
     fm ++ fm_aux idx l).
Proof.
  induction l as [|a l IH]; intros idx tbl fm; cbn [fold_left map fm_aux List.length].
  - rewrite !app_nil_r. f_equal. f_equal. lia.
  - rewrite IH, <- !app_assoc. cbn [app]. f_equal. f_equal. lia.
Qed.

Lemma nlt_sub_fold (p : Z) (subs : list (string * Z)) :
  forall idx tbl,
  fold_left (fun '(index, table) (sub : string * Z) =>
               (index + 1, table ++ [IsoPathTableEntry_new (snd sub) p (fst sub)]))
            subs (idx, tbl)
  = (idx + Z.of_nat (List.length subs),
     tbl ++ map (fun sub => IsoPathTableEntry_new (snd sub) p (fst sub)) subs).
Proof.
  induction subs as [|a l IH]; intros idx tbl; cbn [fold_left map List.length].
  - rewrite app_nil_r. f_equal. lia.
  - rewrite IH, <- app_assoc. f_equal. lia.
Qed.

Lemma nlt_outer_fold (fm : list ((string * Z) * Z)) (l : list (nat * list (string * Z))) :
  forall idx tbl,
  snd (fold_left (fun '(index, table) (ip : nat * list (string * Z)) =>
                 let '(i, subfolders) := ip in
                 match nth_error fm i with
                 | Some (_, parent_index) =>
                     fold_left (fun '(index, table) (sub : string * Z) =>
                                  (index + 1,
                                   table ++ [IsoPathTableEntry_new (snd sub) parent_index (fst sub)]))
                               subfolders (index, table)
                 | None => (index, table)
                 end) l (idx, tbl))
  = tbl ++ flat_map (fun ip : nat * list (string * Z) =>
                       let '(i, subs) := ip in
                       match nth_error fm i with
                       | Some (_, p) => map (fun sub => IsoPathTableEntry_new (snd sub) p (fst sub)) subs
                       | None => []
                       end) l.
Proof.
  induction l as [|[i subs] l IH]; intros idx tbl; cbn [fold_left flat_map].
  - rewrite app_nil_r. reflexivity.
  - destruct (nth_error fm i) as [[? p]|].
    + rewrite nlt_sub_fold, IH, app_assoc. reflexivity.
    + rewrite IH. reflexivity.
Qed.

Lemma fm_aux_nth (l : list (string * Z)) :
  forall idx i, nth_error (fm_aux idx l) i
                = option_map (fun a => (a, idx + 1 + Z.of_nat i)) (nth_error l i).
Proof.
  induction l as [|a l IH]; intros idx [|i]; cbn [fm_aux nth_error option_map]; try reflexivity.
  - f_equal. f_equal. lia.
  - rewrite IH. destruct (nth_error l i); cbn [option_map]; [|reflexivity].
    f_equal. f_equal. lia.
Qed.

(** X6.  [IsoPathTable::new_l_table] panics on an empty source.  Otherwise
    its table is the root entry (identifier "\0", extent 23, parent 1),
    the first-level folders in order with parent 1, then for each later
    group [i] (counted from 0) its folders with parent number [i + 2] if
    the source has an [i]-th first-level folder, and nothing for that
    group otherwise. *)
Theorem new_l_table_entries (source : list (list (string * Z))) :
  new_l_table source =
  match source with
  | [] => Panic IndexOutOfBounds
  | s0 :: rest => Ok (LTable (l_table_closed s0 rest))
  end.
Proof.
  destruct source as [|s0 rest]; [reflexivity|].
  unfold new_l_table. cbn [bind tl].
  rewrite nlt_first_fold. cbn [app].
  match goal with
  | |- (let '(_, t) := ?x in Ok (LTable t)) = _ =>
      replace x with (fst x, snd x) by (destruct x; reflexivity)
  end.
  rewrite nlt_outer_fold. unfold l_table_closed. cbn [app]. f_equal. f_equal. f_equal. f_equal.
  apply flat_map_ext. intros [i subs].
  rewrite fm_aux_nth. destruct (Nat.ltb_spec i (List.length s0)) as [Hi|Hi].
  - destruct (nth_error s0 i) eqn:E; cbn [option_map].
    + cbn [option_map]. replace (1 + 1 + Z.of_nat i) with (Z.of_nat i + 2) by lia. reflexivity.
    + apply nth_error_None in E. lia.
  - rewrite (proj2 (nth_error_None s0 i) Hi). reflexivity.
Qed.

Lemma fixed_field_bytes (keep : ascii -> bool) (f : option string) (size : nat) :
  List.length (fixed_field keep f size) = size /\
  Forall (fun b => b = 32 \/ exists c, keep c = true /\ b = byte_of_ascii c)
         (fixed_field keep f size).
Proof.
  split; [apply fixed_field_length|].
  unfold fixed_field. destruct f as [t|].
  - apply Forall_app. split.
    + match goal with |- Forall ?P (firstn _ ?l) =>
        assert (HL : Forall P l); [|rewrite <- (firstn_skipn size l) in HL;
                                     apply Forall_app in HL; apply HL] end.
      apply Forall_map. apply Forall_forall.
      intros c Hc. apply filter_In in Hc. right. exists c. split; [apply Hc|reflexivity].
    + apply Forall_forall. intros b Hb. apply repeat_spec in Hb. left. exact Hb.
  - apply Forall_forall. intros b Hb. apply repeat_spec in Hb. left. exact Hb.
Qed.

(** X7.  [a_characters!] and [d_characters!] always give exactly [size]
    bytes, each of them a space or the byte of a character that passes
    the a-character (resp. d-character) filter. *)
Theorem a_d_characters_fields (f : option string) (size : nat) :
  (List.length (a_characters f size) = size /\
   Forall (fun b => b = 32 \/ exists c, is_a_char c = true /\ b = byte_of_ascii c)
          (a_characters f size)) /\
  (List.length (d_characters f size) = size /\
   Forall (fun b => b = 32 \/ exists c, is_d_char c = true /\ b = byte_of_ascii c)
          (d_characters f size)).
Proof. split; apply fixed_field_bytes. Qed.

Lemma forallb_seq_Z (P : Z -> bool) (N : nat) :
  forallb (fun k => P (Z.of_nat k)) (seq 0 N) = true ->
  forall n, 0 <= n < Z.of_nat N -> P n = true.
Proof.
  intros H n Hn. rewrite forallb_forall in H.
  replace n with (Z.of_nat (Z.to_nat n)) by lia. apply H.
  apply in_seq. lia.
Qed.

Lemma list_Z_eqb_eq (a b : list Z) : list_Z_eqb a b = true -> a = b.
Proof. unfold list_Z_eqb. destruct (list_eq_dec Z.eq_dec a b); congruence. Qed.

Lemma fmt_zero_pad_2 (n : Z) : 0 <= n < 100 -> fmt_zero_pad 2 n = dec_digits 2 n.
Proof.
  intros Hn. apply list_Z_eqb_eq.
  apply (forallb_seq_Z (fun n => list_Z_eqb (fmt_zero_pad 2 n) (dec_digits 2 n)) 100);
    [vm_compute; reflexivity | vm_compute Z.of_nat; lia].
Qed.

Lemma fmt_zero_pad_4 (n : Z) : 0 <= n < 10000 -> fmt_zero_pad 4 n = dec_digits 4 n.
Proof.
  intros Hn. apply list_Z_eqb_eq.
  apply (forallb_seq_Z (fun n => list_Z_eqb (fmt_zero_pad 4 n) (dec_digits 4 n)) 10000);
    [vm_compute; reflexivity | vm_compute Z.of_nat; lia].
Qed.

Lemma fmt_zero_pad_3_firstn (n : Z) :
  0 <= n < 1000 -> firstn 2 (fmt_zero_pad 3 n) = dec_digits 2 (n / 10).
Proof.
  intros Hn. apply list_Z_eqb_eq.
  apply (forallb_seq_Z (fun n => list_Z_eqb (firstn 2 (fmt_zero_pad 3 n)) (dec_digits 2 (n / 10))) 1000);
    [vm_compute; reflexivity | vm_compute Z.of_nat; lia].
Qed.

Lemma dec_digits_length (w : nat) (n : Z) : List.length (dec_digits w n) = w.
Proof. unfold dec_digits. rewrite length_map, length_rev, length_seq. reflexivity. Qed.

(** X8.  For a date-time with a year in 0..9999, the other fields in
    0..99 and nanoseconds below one second, [DecDateTime::try_from] writes
    the year as 4 ASCII decimal digits, month, day, hour, minute and
    second as 2 digits each, then the hundredths of a second as 2 digits,
    and a zero time-zone byte. *)
Theorem DecDateTime_try_from_digits (v : DateTime) :
  0 <= dt_year v <= 9999 -> 0 <= dt_month v <= 99 -> 0 <= dt_day v <= 99 ->
  0 <= dt_hour v <= 99 -> 0 <= dt_minute v <= 99 -> 0 <= dt_second v <= 99 ->
  0 <= dt_nanos v < 1000000000 ->
  DecDateTime_try_from v =
  Ok (dec_digits 4 (dt_year v) ++ dec_digits 2 (dt_month v) ++ dec_digits 2 (dt_day v)
      ++ dec_digits 2 (dt_hour v) ++ dec_digits 2 (dt_minute v)
      ++ dec_digits 2 (dt_second v) ++ dec_digits 2 (dt_nanos v / 10000000) ++ [0]).
Proof.
  intros Hy Hmo Hd Hh Hmi Hs Hn. unfold DecDateTime_try_from.
  rewrite fmt_zero_pad_4, !fmt_zero_pad_2 by lia.
  rewrite fmt_zero_pad_3_firstn
    by (split; [apply Z.div_pos; lia | apply Z.div_lt_upper_bound; lia]).
  rewrite Z.div_div by lia.
  rewrite !firstn_all2 by (rewrite dec_digits_length; lia).
  reflexivity.
Qed.

Lemma DecDateTime_try_from_digits_witness :
  (0 <= dt_year ts_2024 <= 9999 /\ 0 <= dt_month ts_2024 <= 99 /\ 0 <= dt_day ts_2024 <= 99 /\
   0 <= dt_hour ts_2024 <= 99 /\ 0 <= dt_minute ts_2024 <= 99 /\ 0 <= dt_second ts_2024 <= 99 /\
   0 <= dt_nanos ts_2024 < 1000000000) /\
  DecDateTime_try_from ts_2024 =
  Ok (dec_digits 4 (dt_year ts_2024) ++ dec_digits 2 (dt_month ts_2024) ++ dec_digits 2 (dt_day ts_2024)
      ++ dec_digits 2 (dt_hour ts_2024) ++ dec_digits 2 (dt_minute ts_2024)
      ++ dec_digits 2 (dt_second ts_2024) ++ dec_digits 2 (dt_nanos ts_2024 / 10000000) ++ [0]).
Proof.
  split; [cbn; lia|].
  apply (DecDateTime_try_from_digits ts_2024); cbn; lia.
Defined.

Lemma chunks_aux_sectors (fuel : nat) :
  forall c, (List.length c <= fuel)%nat ->
  flat_map write_file_sector (chunks_aux fuel c)
    = c ++ zeros (Z.to_nat ((2048 - Z.of_nat (List.length c) mod 2048) mod 2048)) /\
  Z.of_nat (List.length (chunks_aux fuel c)) = (Z.of_nat (List.length c) + 2047) / 2048.
Proof.
  induction fuel as [|f IH]; intros c Hc.
  - destruct c; [|cbn in Hc; lia]. split; reflexivity.
  - destruct c as [|x c']; [split; reflexivity|].
    set (c := x :: c') in *.
    assert (Hne : (0 < List.length c)%nat) by (cbn; lia).
    change (chunks_aux (S f) c) with (firstn 2048 c :: chunks_aux f (skipn 2048 c)).
    cbn [flat_map List.length].
    destruct (Nat.le_gt_cases (List.length c) 2048) as [Hle|Hgt].
    + rewrite (proj1 (length_zero_iff_nil (skipn 2048 c))) by (rewrite length_skipn; lia).
      replace (chunks_aux f []) with (@nil (list Z)) by (destruct f; reflexivity).
      cbn [flat_map List.length]. rewrite app_nil_r.
      split; [|Z.div_mod_to_equations; lia].
      unfold write_file_sector. rewrite (firstn_all2 (n:=2048) c) by lia.
      rewrite Nat.min_l by lia. rewrite firstn_all2 by lia.
      f_equal. unfold zeros. f_equal.
      (destruct (Nat.eq_dec (List.length c) 2048) as [E|E];
       [rewrite E; reflexivity|]).
      rewrite (Z.mod_small (Z.of_nat (List.length c)) 2048) by lia.
      rewrite Z.mod_small by lia. lia.
    + destruct (IH (skipn 2048 c)) as [IH1 IH2]; [rewrite length_skipn; lia|].
      rewrite length_skipn in IH1, IH2. split.
      * rewrite IH1. unfold write_file_sector.
        rewrite length_firstn, Nat.min_l, Nat.min_l by lia.
        rewrite firstn_firstn, Nat.min_id, Nat.sub_diag. cbn [zeros repeat].
        rewrite app_nil_r, app_assoc, firstn_skipn. f_equal. unfold zeros. f_equal.
        f_equal. rewrite Nat2Z.inj_sub by lia.
        replace (Z.of_nat (List.length c) - Z.of_nat 2048) with (Z.of_nat (List.length c) + (-1) * 2048)
          by lia.
        rewrite Z.mod_add by lia. reflexivity.
      * rewrite Nat2Z.inj_succ, IH2, Nat2Z.inj_sub by lia.
        replace (Z.of_nat (List.length c) - Z.of_nat 2048 + 2047)
          with ((Z.of_nat (List.length c) + 2047) + (-1) * 2048) by lia.
        rewrite Z.div_add by lia. lia.
Qed.

(** X9.  Cutting a file's content into [chunks(2048)] and writing each
    chunk as one zero-filled 2048-byte sector writes the content unchanged
    followed by zeros up to the next multiple of 2048, in
    [ceil(length / 2048)] sectors (none for an empty file). *)
Theorem file_content_sectors (c : list Z) :
  flat_map write_file_sector (chunks c)
    = c ++ zeros (Z.to_nat ((2048 - Z.of_nat (List.length c) mod 2048) mod 2048)) /\
  Z.of_nat (List.length (chunks c)) = (Z.of_nat (List.length c) + 2047) / 2048.
Proof. apply chunks_aux_sectors. lia. Qed.

Lemma skipn_app_ge {A} (n : nat) (a b : list A) :
  (List.length a <= n)%nat -> skipn n (a ++ b) = skipn (n - List.length a) b.
Proof. intros H. rewrite skipn_app, skipn_all2 by exact H. reflexivity. Qed.

Lemma zeros_length (n : nat) : List.length (zeros n) = n.
Proof. apply repeat_length. Qed.
Lemma native32_length (v : Z) : List.length (native32 v) = 4%nat.
Proof. apply le_bytes_length. Qed.
Lemma native16_length (v : Z) : List.length (native16 v) = 2%nat.
Proof. apply le_bytes_length. Qed.
Lemma lsbmsb16_length (v : Z) : List.length (lsbmsb16 v) = 4%nat.
Proof. unfold lsbmsb16, native16. rewrite length_app, !le_bytes_length. reflexivity. Qed.
Lemma lsbmsb32_length (v : Z) : List.length (lsbmsb32 v) = 8%nat.
Proof. unfold lsbmsb32. rewrite length_app, !native32_length. reflexivity. Qed.
Lemma a_characters_length (f : option string) (n : nat) : List.length (a_characters f n) = n.
Proof. apply fixed_field_length. Qed.
Lemma d_characters_length (f : option string) (n : nat) : List.length (d_characters f n) = n.
Proof. apply fixed_field_length. Qed.
Lemma standard_id_CD001_length : List.length standard_id_CD001 = 5%nat.
Proof. reflexivity. Qed.

Ltac len_rw :=
  rewrite ?length_app, ?zeros_length, ?native32_length, ?native16_length, ?lsbmsb16_length, ?lsbmsb32_length,
    ?a_characters_length, ?d_characters_length, ?standard_id_CD001_length;
  cbn [List.length Nat.sub].

Ltac skip_fields :=
  repeat (rewrite skipn_app_ge by (len_rw; lia); len_rw).

Lemma IsoHeader_into_raw_bytes (h : IsoHeader) (r : RootDirectoryEntry) (hr : IsoHeaderRaw) :
  IsoHeader_into_raw h r = Ok hr ->
  exists root rest,
    RootDirectoryEntry_into_raw r = Ok root /\
    IsoHeaderRaw_bytes hr =
      [1] ++ standard_id_CD001 ++ [1] ++ [0]
      ++ a_characters (h_system_id h) 32 ++ d_characters (h_volumen_id h) 32 ++ zeros 8
      ++ lsbmsb32 (h_volume_space_size h) ++ zeros 32
      ++ lsbmsb16 (h_volume_set_size h) ++ lsbmsb16 (h_volume_sequence_number h)
      ++ lsbmsb16 (h_logical_block_size h) ++ lsbmsb32 (h_path_table_size h)
      ++ native32 (h_loc_of_type_l_path_table h) ++ native32 (h_loc_of_opti_l_path_table h)
      ++ native32 (to_be 4 (h_loc_of_type_m_path_table h))
      ++ native32 (to_be 4 (h_loc_of_opti_m_path_table h))
      ++ root ++ rest.
Proof.
  unfold IsoHeader_into_raw. intros H.
  apply bind_Ok in H. destruct H as (root & Hroot & H).
  apply bind_Ok in H. destruct H as (cd & Hcd & H).
  apply bind_Ok in H. destruct H as (md & Hmd & H).
  apply bind_Ok in H. destruct H as (xd & Hxd & H).
  apply bind_Ok in H. destruct H as (ed & Hed & H).
  apply Ok_inj in H. subst hr.
  exists root. eexists. split; [exact Hroot|]. reflexivity.
Qed.

Lemma RootDirectoryEntry_into_raw_bytes (r : RootDirectoryEntry) (root : list Z) :
  RootDirectoryEntry_into_raw r = Ok root ->
  exists post, root = [34; 0] ++ lsbmsb32 (as_u32 (rde_location_of_extent r)) ++ post.
Proof.
  unfold RootDirectoryEntry_into_raw. intros H.
  apply bind_Ok in H. destruct H as (dt & _ & H). apply Ok_inj in H. subst root.
  eexists. reflexivity.
Qed.

Lemma le_value_native32_small (v : Z) :
  0 <= v < u32_max -> le_value (firstn 4 (native32 v)) = v.
Proof.
  intros Hv. unfold native32. rewrite firstn_all2 by (rewrite le_bytes_length; lia).
  rewrite le_value_le_bytes by lia. apply Z.mod_small. unfold u32_max in Hv. cbn. lia.
Qed.

(** The parts of [close]'s output. *)
Lemma close_parts (w : IsoFileWriter) (now : DateTime) (img : list Z) :
  close w now = Ok img ->
  exists st ds pg es hraw lb mb dirs,
    close_plan (w_files w) now = Ok st /\
    set_locations 23 (bs_dirs_sectors st) = Ok (ds, pg) /\
    new_l_table pg = Ok (LTable es) /\
    path_table_buffer (List.length (as_vec (LTable es))) (as_vec (LTable es))
      "l path table is too large" = Ok lb /\
    path_table_buffer (List.length (as_vec (LTable es)))
      (as_vec (convert_to_m_table (LTable es))) "m path table is too large" = Ok mb /\
    write_dir_sectors ds = Ok dirs /\
    IsoHeader_into_raw
      {| h_system_id := h_system_id (w_header w); h_volumen_id := h_volumen_id (w_header w);
         h_volume_space_size :=
           as_u32 (22 + Z.of_nat (List.length ds)
                   + Z.of_nat (List.length (bs_files_sectors st)));
         h_volume_set_size := 1; h_volume_sequence_number := 1;
         h_logical_block_size := h_logical_block_size (w_header w);
         h_path_table_size := as_u32 (Z.of_nat (List.length (as_vec (LTable es))));
         h_loc_of_type_l_path_table := 19;
         h_loc_of_opti_l_path_table := h_loc_of_opti_l_path_table (w_header w);
         h_loc_of_type_m_path_table := 21;
         h_loc_of_opti_m_path_table := h_loc_of_opti_m_path_table (w_header w);
         h_volume_set_id := h_volume_set_id (w_header w);
         h_publisher_id := h_publisher_id (w_header w);
         h_data_preparer_id := h_data_preparer_id (w_header w);
         h_application_id := h_application_id (w_header w);
         h_copyright_file_id := h_copyright_file_id (w_header w);
         h_abstract_file_id := h_abstract_file_id (w_header w);
         h_bibliographic_file_id := h_bibliographic_file_id (w_header w);
         h_volume_creation_date := h_volume_creation_date (w_header w);
         h_volume_modification_date := h_volume_modification_date (w_header w);
         h_volume_expiration_date := h_volume_expiration_date (w_header w);
         h_volume_effective_date := h_volume_effective_date (w_header w) |}
      {| rde_location_of_extent := 23;
         rde_data_length := Z.of_nat (count_root_sectors ds) * LOGICAL_BLOCK_SIZE;
         rde_datetime := now |} = Ok hraw /\
    img = zeros 32768 ++ IsoHeaderRaw_bytes hraw ++ IsoHeaderRaw_bytes IsoHeaderRaw_terminator
          ++ zeros 2048 ++ lb ++ mb ++ dirs ++ flat_map write_file_sector (bs_files_sectors st).
Proof.
  unfold close. intros H.
  apply bind_Ok in H. destruct H as (st & Hplan & H).
  apply bind_Ok in H. destruct H as ([ds pg] & Hloc & H).
  cbv zeta in H.
  apply bind_Ok in H. destruct H as (lt & Hlt & H).
  assert (Hl : exists es, lt = LTable es).
  { destruct pg as [|s0 rest]; [discriminate Hlt|].
    unfold new_l_table in Hlt. cbn [bind] in Hlt.
    destruct (fold_left _ s0 _) as [[? ?] ?].
    destruct (fold_left _ _ _) as [? ?]. apply Ok_inj in Hlt. eexists. symmetry. exact Hlt. }
  destruct Hl as [es ->].
  apply bind_Ok in H. destruct H as (hraw & Hraw & H).
  apply bind_Ok in H. destruct H as (lb & Hlb & H).
  apply bind_Ok in H. destruct H as (mb & Hmb & H).
  apply bind_Ok in H. destruct H as (dirs & Hdirs & H).
  apply Ok_inj in H.
  exists st, ds, pg, es, hraw, lb, mb, dirs. repeat split; auto.
Qed.

Lemma firstn_app_ge {A} (n : nat) (a b : list A) :
  (n <= List.length a)%nat -> firstn n (a ++ b) = firstn n a.
Proof.
  intros H. rewrite firstn_app. replace (n - List.length a)%nat with 0%nat by lia.
  apply app_nil_r.
Qed.

Lemma le_value_native16 (v : Z) : 0 <= v -> le_value (native16 v) = v mod 65536.
Proof. intros Hv. unfold native16. rewrite le_value_le_bytes by exact Hv. reflexivity. Qed.

Lemma close_pvd_fields (w : IsoFileWriter) (now : DateTime) (img : list Z) :
  close w now = Ok img -> 0 <= h_logical_block_size (w_header w) ->
  firstn 32768 img = zeros 32768 /\
  (firstn 7 (firstn 2048 (skipn 32768 img)) = [1; 67; 68; 48; 48; 49; 1] /\
   hraw_logical_block_size (firstn 2048 (skipn 32768 img))
     = h_logical_block_size (w_header w) mod 65536 /\
   hraw_loc_of_type_l_path_table_field (firstn 2048 (skipn 32768 img)) = 19 /\
   firstn 4 (skipn 148 (firstn 2048 (skipn 32768 img))) = [0; 0; 0; 21] /\
   hraw_root_location_field (firstn 2048 (skipn 32768 img)) = 23) /\
  firstn 7 (skipn 2048 (skipn 32768 img)) = [255; 67; 68; 48; 48; 49; 1].
Proof.
  intros Hc Hlbs.
  destruct (close_parts _ _ _ Hc)
    as (st & ds & pg & es & hraw & lb & mb & dirs & _ & _ & _ & _ & _ & _ & Hraw & ->).
  destruct (IsoHeader_into_raw_shape _ _ _ Hraw) as (pre & post & Hb0 & Hpre & Hpost).
  assert (Hpvd : List.length (IsoHeaderRaw_bytes hraw) = 2048%nat)
    by (rewrite Hb0, !length_app, Hpre, Hpost; reflexivity).
  clear Hb0 pre post Hpre Hpost.
  split; [apply firstn_app_len, repeat_length|].
  rewrite skipn_app_len by apply repeat_length.
  split; [|rewrite skipn_app_len by exact Hpvd;
           rewrite firstn_app_ge by (rewrite terminator_len; lia); reflexivity].
  rewrite firstn_app_len by exact Hpvd.
  destruct (IsoHeader_into_raw_bytes _ _ _ Hraw) as (root & rest & Hroot & Hb).
  destruct (RootDirectoryEntry_into_raw_bytes _ _ Hroot) as (rpost & Hr).
  cbn [rde_location_of_extent h_system_id h_volumen_id h_volume_space_size
       h_volume_set_size h_volume_sequence_number h_logical_block_size h_path_table_size
       h_loc_of_type_l_path_table h_loc_of_opti_l_path_table
       h_loc_of_type_m_path_table h_loc_of_opti_m_path_table] in Hb, Hr.
  rewrite Hb, Hr. clear Hb Hr Hroot Hraw Hpvd.
  unfold hraw_logical_block_size, hraw_loc_of_type_l_path_table_field,
    hraw_root_location_field, field, lsbmsb16, lsbmsb32.
  rewrite <- !app_assoc.
  refine (conj _ (conj _ (conj _ (conj _ _)))).
  - reflexivity.
  - skip_fields. rewrite skipn_O. rewrite firstn_app_len by apply le_bytes_length.
    apply le_value_native16. exact Hlbs.
  - skip_fields. rewrite skipn_O. rewrite firstn_app_len by apply le_bytes_length.
    reflexivity.
  - skip_fields. rewrite skipn_O. rewrite firstn_app_len by apply le_bytes_length.
    reflexivity.
  - skip_fields. rewrite skipn_O. rewrite firstn_app_len by apply le_bytes_length.
    reflexivity.
Qed.

(** X10.  After a successful [close()] (with a non-negative block size in
    the header), the first 16 sectors are zero; sector 16 starts with
    type 1, "CD001", version 1, and its fields read as the header's
    logical block size (as a [u16]), the L-path-table at LBA 19, the
    M-path-table at LBA 21 (big-endian) and the root directory at LBA 23;
    sector 17 starts with the terminator: type 255, "CD001", version 1. *)
Theorem close_volume_descriptors (w : IsoFileWriter) (now : DateTime) (img : list Z) :
  close w now = Ok img -> 0 <= h_logical_block_size (w_header w) ->
  firstn 32768 img = zeros 32768 /\
  (firstn 7 (firstn 2048 (skipn 32768 img)) = [1; 67; 68; 48; 48; 49; 1] /\
   hraw_logical_block_size (firstn 2048 (skipn 32768 img))
     = h_logical_block_size (w_header w) mod 65536 /\
   hraw_loc_of_type_l_path_table_field (firstn 2048 (skipn 32768 img)) = 19 /\
   firstn 4 (skipn 148 (firstn 2048 (skipn 32768 img))) = [0; 0; 0; 21] /\
   hraw_root_location_field (firstn 2048 (skipn 32768 img)) = 23) /\
  firstn 7 (skipn 2048 (skipn 32768 img)) = [255; 67; 68; 48; 48; 49; 1].
Proof. exact (close_pvd_fields w now img). Qed.

Lemma path_table_buffer_small (l_len : nat) (raw : list Z) (msg : string) (bs : list Z) :
  path_table_buffer l_len raw msg = Ok bs -> bs = raw ++ zeros (4096 - List.length raw).
Proof.
  unfold path_table_buffer. intros H.
  destruct (Nat.leb l_len 4096); [|discriminate].
  destruct (Nat.leb (List.length raw) 4096); [|discriminate].
  apply Ok_inj in H. symmetry. exact H.
Qed.

Lemma close_volume_descriptors_witness :
  let img := match write_image ts_2024 inputs_xy with Ok i => i | _ => [] end in
  (close (writer_of ts_2024 inputs_xy) ts_2024 = Ok img /\
   0 <= h_logical_block_size (w_header (writer_of ts_2024 inputs_xy))) /\
  hraw_loc_of_type_l_path_table_field (firstn 2048 (skipn 32768 img)) = 19 /\
  hraw_root_location_field (firstn 2048 (skipn 32768 img)) = 23 /\
  firstn 7 (skipn 2048 (skipn 32768 img)) = [255; 67; 68; 48; 48; 49; 1].
Proof.
  intros img.
  assert (H1 : close (writer_of ts_2024 inputs_xy) ts_2024 = Ok img)
    by (apply is_ok_Ok; vm_compute; reflexivity).
  assert (H2 : 0 <= h_logical_block_size (w_header (writer_of ts_2024 inputs_xy)))
    by (vm_compute; intros E; discriminate E).
  split; [exact (conj H1 H2)|].
  destruct (close_volume_descriptors (writer_of ts_2024 inputs_xy) ts_2024 img H1 H2)
    as (_ & (_ & _ & Hl & _ & Hr) & Ht).
  exact (conj Hl (conj Hr Ht)).
Defined.

Lemma read_exact_Ok (img : list Z) (off : Z) (n : nat) (bs : list Z) :
  read_exact img off n = Ok bs -> bs = firstn n (skipn (Z.to_nat off) img).
Proof.
  unfold read_exact. destruct (_ || _); [|discriminate]. intros H. apply Ok_inj in H.
  symmetry. exact H.
Qed.

(** X11.  When [close()] succeeds with the default block size 2048, and the
    L-path-table it builds has well-formed entries (non-empty identifiers)
    and takes less than 4096 bytes, reading the L-path-table at LBA 19
    gives that table back, and so does [IsoFileReader::read] whenever it
    succeeds on the image. *)
Theorem close_l_table_read_back (w : IsoFileWriter) (now : DateTime) (img : list Z)
    (ds : list Sector) (fs : list (list Z)) (pg : list (list (string * Z)))
    (es : list IsoPathTableEntry) :
  close w now = Ok img -> h_logical_block_size (w_header w) = 2048 ->
  close_layout w now = Ok (ds, fs, pg) -> new_l_table pg = Ok (LTable es) ->
  Forall pte_ok es -> (List.length (as_vec (LTable es)) < 4096)%nat ->
  read_l_table img (19 * 2048) = Ok (LTable es) /\
  (forall r, IsoFileReader_read img = Ok r -> r_path_table r = LTable es).
Proof.
  intros Hc Hlbs Hlay Hlt Hok Hlen.
  destruct (close_pvd_fields _ _ _ Hc ltac:(lia)) as (_ & (_ & Flbs & Fl & _ & _) & _).
  rewrite Hlbs in Flbs. change (2048 mod 65536) with 2048 in Flbs.
  destruct (close_parts _ _ _ Hc)
    as (st & ds' & pg' & es' & hraw & lb & mb & dirs & Hplan & Hloc & Hlt' & Hlb & Hmb & _
        & Hraw & Himg).
  unfold close_layout in Hlay. rewrite Hplan in Hlay. cbn [bind] in Hlay.
  rewrite Hloc in Hlay. cbn [bind] in Hlay. apply Ok_inj in Hlay.
  injection Hlay as <- <- <-.
  rewrite Hlt in Hlt'. injection Hlt' as <-.
  pose proof (path_table_buffer_len _ _ _ _ Hmb) as Lmb.
  apply path_table_buffer_small in Hlb.
  destruct (IsoHeader_into_raw_shape _ _ _ Hraw) as (pre & post & Hb0 & Hpre & Hpost).
  assert (Hpvd : List.length (IsoHeaderRaw_bytes hraw) = 2048%nat)
    by (rewrite Hb0, !length_app, Hpre, Hpost; reflexivity).
  clear Hb0 pre post Hpre Hpost.
  set (raw := as_vec (LTable es)) in *.
  set (pre := zeros 32768 ++ IsoHeaderRaw_bytes hraw ++ IsoHeaderRaw_bytes IsoHeaderRaw_terminator
              ++ zeros 2048).
  set (rest := zeros (4096 - List.length raw) ++ mb ++ dirs
               ++ flat_map write_file_sector (bs_files_sectors st)).
  assert (Himg' : img = pre ++ flat_map IsoPathTableEntry_bytes es ++ rest)
    by (rewrite Himg, Hlb; unfold pre, rest, raw, as_vec, table_entries;
        rewrite <- !app_assoc; reflexivity).
  assert (Hpre : Z.of_nat (List.length pre) = 19 * 2048)
    by (unfold pre; rewrite !length_app, !zeros_length, Hpvd, terminator_len; vm_compute; reflexivity).
  assert (Hrest : (8 <= List.length rest)%nat)
    by (unfold rest; rewrite !length_app, Lmb; lia).
  assert (Hhd : hd 1 rest = 0).
  { unfold rest. destruct (4096 - List.length raw)%nat as [|k] eqn:E; [lia|]. reflexivity. }
  assert (Hread : read_l_table img (19 * 2048) = Ok (LTable es)).
  { unfold read_l_table. rewrite <- Hpre, Himg'.
    rewrite (read_l_table_loop_as_vec es rest Hok Hrest Hhd pre []).
    - reflexivity.
    - rewrite !length_app. pose proof (flat_map_entries_length es). lia. }
  split; [exact Hread|].
  intros r Hr. unfold IsoFileReader_read in Hr.
  apply bind_Ok in Hr. destruct Hr as (header & Hh & Hr).
  apply read_exact_Ok in Hh. change (Z.to_nat 32768) with 32768%nat in Hh. subst header.
  rewrite Fl, Flbs in Hr.
  apply bind_Ok in Hr. destruct Hr as (tl & Htl & Hr).
  unfold u32_mul in Htl. change (19 * 2048 <? u32_max) with true in Htl. cbv iota in Htl. apply Ok_inj in Htl. subst tl.
  apply bind_Ok in Hr. destruct Hr as (pt & Hpt & Hr).
  rewrite Hread in Hpt. apply Ok_inj in Hpt. subst pt.
  apply bind_Ok in Hr. destruct Hr as (root & _ & Hr).
  apply bind_Ok in Hr. destruct Hr as (entries & _ & Hr).
  apply Ok_inj in Hr. subst r. reflexivity.
Qed.

Lemma close_l_table_read_back_witness :
  let img := match write_image ts_2024 inputs_xy with Ok i => i | _ => [] end in
  let lay := match close_layout (writer_of ts_2024 inputs_xy) ts_2024 with
             | Ok x => x | _ => ([], [], []) end in
  let es := match new_l_table (snd lay) with Ok (LTable es) => es | _ => [] end in
  (close (writer_of ts_2024 inputs_xy) ts_2024 = Ok img /\
   h_logical_block_size (w_header (writer_of ts_2024 inputs_xy)) = 2048 /\
   close_layout (writer_of ts_2024 inputs_xy) ts_2024
     = Ok (fst (fst lay), snd (fst lay), snd lay) /\
   new_l_table (snd lay) = Ok (LTable es) /\
   Forall pte_ok es /\ (List.length (as_vec (LTable es)) < 4096)%nat) /\
  read_l_table img (19 * 2048) = Ok (LTable es) /\
  (forall r, IsoFileReader_read img = Ok r -> r_path_table r = LTable es).
Proof.
  intros img lay es.
  assert (H1 : close (writer_of ts_2024 inputs_xy) ts_2024 = Ok img)
    by (apply is_ok_Ok; vm_compute; reflexivity).
  assert (H2 : h_logical_block_size (w_header (writer_of ts_2024 inputs_xy)) = 2048)
    by (vm_compute; reflexivity).
  assert (H3 : close_layout (writer_of ts_2024 inputs_xy) ts_2024
                 = Ok (fst (fst lay), snd (fst lay), snd lay))
    by (vm_compute; reflexivity).
  assert (H4 : new_l_table (snd lay) = Ok (LTable es)) by (vm_compute; reflexivity).
  assert (Ees : es = ltac:(let v := eval vm_compute in es in exact v))
    by (vm_compute; reflexivity).
  assert (H5 : Forall pte_ok es)
    by (rewrite Ees; repeat constructor; unfold pte_ok, u32_max, u16_max; cbn; lia).
  assert (H6 : (List.length (as_vec (LTable es)) < 4096)%nat)
    by (apply Nat.ltb_lt; vm_compute; reflexivity).
  split; [exact (conj H1 (conj H2 (conj H3 (conj H4 (conj H5 H6)))))|].
  exact (close_l_table_read_back (writer_of ts_2024 inputs_xy) ts_2024 img
           (fst (fst lay)) (snd (fst lay)) (snd lay) es H1 H2 H3 H4 H5 H6).
Defined.

Section Chars.
Variable P : ascii -> Prop.
Hypothesis P_slash : P "/"%char.
Hypothesis P_dot : P "."%char.

Lemma split_slash_aux_chars (s : string) :
  forall cur, chars_ok P s -> Forall P cur -> Forall (chars_ok P) (split_slash_aux s cur).
Proof.
  unfold chars_ok.
  induction s as [|c s IH]; intros cur Hs Hcur; cbn [split_slash_aux].
  - constructor; [|constructor]. rewrite list_ascii_of_string_of_list_ascii.
    apply Forall_rev. exact Hcur.
  - cbn [list_ascii_of_string] in Hs. inversion Hs as [|? ? Hc Hs']; subst.
    destruct (Ascii.eqb c "/").
    + constructor.
      * rewrite list_ascii_of_string_of_list_ascii. apply Forall_rev. exact Hcur.
      * apply IH; [exact Hs' | constructor].
    + apply IH; [exact Hs' | constructor; assumption].
Qed.

Lemma components_chars (s : string) : chars_ok P s -> Forall (comp_chars_ok P) (components s).
Proof.
  intros Hs.
  assert (Hp : Forall (chars_ok P) (split_slash s))
    by (apply split_slash_aux_chars; [exact Hs | constructor]).
  assert (Hdot : comp_chars_ok P CurDir) by (repeat constructor; exact P_dot).
  assert (Hpc : forall p, chars_ok P p -> Forall (comp_chars_ok P) (piece_component p)).
  { intros p Hl. unfold piece_component.
    destruct (String.eqb p EmptyString); [constructor|].
    destruct (String.eqb p "."); [constructor|].
    destruct (String.eqb p "..").
    - repeat constructor; exact P_dot.
    - repeat constructor. exact Hl. }
  assert (Hfm : forall ps, Forall (chars_ok P) ps -> Forall (comp_chars_ok P) (flat_map piece_component ps)).
  { induction 1; cbn [flat_map]; [constructor|]. apply Forall_app. auto. }
  unfold components. destruct (has_root s).
  - constructor; [repeat constructor; exact P_slash | auto].
  - destruct (split_slash s) as [|p ps]; [constructor|].
    inversion Hp; subst. apply Forall_app. split; [|auto].
    destruct (String.eqb p "."); [constructor; [exact Hdot | constructor] | auto].
Qed.

Lemma path_join_chars (base : PathBuf) (s : string) :
  Forall (comp_chars_ok P) base -> chars_ok P s -> Forall (comp_chars_ok P) (path_join base s).
Proof.
  intros Hb Hs. pose proof (components_chars s Hs) as Hc. unfold path_join.
  destruct (components s) as [|c cs] eqn:E.
  - destruct base; [constructor|]. rewrite app_nil_r. exact Hb.
  - assert (Hdef : Forall (comp_chars_ok P) (match base with
                                   | [] => c :: cs
                                   | _ => base ++ filter not_curdir (c :: cs) end)).
    { destruct base; [exact Hc|]. apply Forall_app. split; [exact Hb|].
      rewrite Forall_forall in Hc |- *. intros x Hx. apply filter_In in Hx. apply Hc, Hx. }
    destruct c; exact Hc || exact Hdef.
Qed.

Lemma take_string_chars (n : nat) (s : string) : chars_ok P s -> chars_ok P (take_string n s).
Proof.
  unfold chars_ok, take_string. intros Hs. rewrite list_ascii_of_string_of_list_ascii.
  rewrite <- (firstn_skipn n (list_ascii_of_string s)) in Hs.
  apply Forall_app in Hs. apply Hs.
Qed.

End Chars.

(** X12.  [append_file] stores a path every component of which is at most
    222 characters long and made only of a-characters (uppercase letters,
    digits, '_' and the listed punctuation, including the "/" of the root
    component and the dots of "." and ".."). *)
Theorem append_file_path_components (path : string) :
  Forall (fun c => (String.length (component_str c) <= 222)%nat /\
                   Forall (fun x => is_a_char x = true) (list_ascii_of_string (component_str c)))
         (append_file_path path).
Proof.
  set (P := fun x => is_a_char x = true).
  assert (Hsl : P "/"%char) by reflexivity.
  assert (Hdt : P "."%char) by reflexivity.
  apply Forall_and; [apply append_file_path_ok|].
  change (Forall (comp_chars_ok P) (append_file_path path)).
  unfold append_file_path.
  assert (Hs : chars_ok P (string_of_list_ascii
                             (filter is_a_char (map to_upper (list_ascii_of_string path))))).
  { unfold chars_ok. rewrite list_ascii_of_string_of_list_ascii.
    apply Forall_forall. intros x Hx. apply filter_In in Hx. apply Hx. }
  pose proof (components_chars P Hsl Hdt _ Hs) as Hc.
  generalize (@nil Component) (Forall_nil (comp_chars_ok P)).
  induction Hc as [|c cs Hc0 _ IH]; intros base Hb; cbn [fold_left]; [exact Hb|].
  apply IH. apply path_join_chars; [exact Hsl | exact Hdt | exact Hb |].
  apply take_string_chars. exact Hc0.
Qed.
